(** * reverse_mpdecimate: block-difference estimator and run-length decimator

    Shallow embedding of [libavfilter/vf_reverse_mpdecimate.c].

    - C [int] values are integers of [Z].  The duplicate counter, which
      grows with the length of the stream, is incremented with the 32-bit
      two's-complement wrap-around written out ([int_wrap]).  Plane sizes are
      those of allocated frames, for which the index arithmetic of
      [diff_planes] stays far inside the [int] range.
    - The [float] option [frac] is a binary32 number.  Every finite binary32
      value is a whole number of units of 2^-149, so a float is represented
      by that whole number and the three float operations of the source
      (int to float, float product, float to int) are written out with
      round-to-nearest-even on 24 significant bits.
    - [uint8_t *] is a buffer with an offset; [AVFrame] keeps the [data] and
      [linesize] arrays, the size and the timestamp.
    - The calls that leave the file ([av_frame_clone], [ff_filter_frame],
      [av_frame_free]) are recorded in an event log; whether a clone succeeds
      and what the downstream link answers is given by an environment. *)

From Stdlib Require Import ZArith List Bool Lia FinFun.
Import ListNotations.
Open Scope Z_scope.

(* ------------------------------------------------------------------ *)
(** ** C integers *)

Definition INT_MAX : Z := 2147483647.
Definition INT_MIN : Z := -2147483648.

(** Value of a 32-bit [int] after an arithmetic result [z]. *)
Definition int_wrap (z : Z) : Z := (z + 2 ^ 31) mod 2 ^ 32 - 2 ^ 31.

(** [AVERROR(e)] and [EINVAL]. *)
Definition EINVAL : Z := 22.
Definition AVERROR (e : Z) : Z := - e.

(** Modelled from the spec: the macro [AV_CEIL_RSHIFT] of libavutil, absent
    from the sources at hand: "right-shifted (ceiling division)" by the
    subsampling factor. *)
Definition AV_CEIL_RSHIFT (a b : Z) : Z := - Z.shiftr (- a) b.

(* ------------------------------------------------------------------ *)
(** ** binary32 arithmetic *)

Module Float32.

(** A finite binary32 number, counted in units of 2^-149. *)
Definition float : Type := Z.

Definition unit_exp : Z := 149.

(** [p / 2^s] rounded to the nearest integer, ties to even ([0 <= p]). *)
Definition rne (s p : Z) : Z :=
  let q := p / 2 ^ s in
  let r := p mod 2 ^ s in
  if 2 * r <? 2 ^ s then q
  else if 2 ^ s <? 2 * r then q + 1
  else if Z.even q then q else q + 1.

(** [p] rounded to 24 significant bits, none of them below [2^emin]
    ([0 <= p]). *)
Definition round24 (emin p : Z) : Z :=
  let s := Z.max emin (Z.log2 p - 23) in
  rne s p * 2 ^ s.

(** Signed rounding. *)
Definition fl (emin p : Z) : Z := Z.sgn p * round24 emin (Z.abs p).

(** [(float) n] for an [int] n. *)
Definition of_int (n : Z) : float := fl 0 (n * 2 ^ unit_exp).

(** [a * b] on floats: the exact product counts units of 2^-298. *)
Definition mul (a b : float) : float := fl unit_exp (a * b) / 2 ^ unit_exp.

(** [(int) f]: truncation toward zero. *)
Definition to_int (f : float) : Z := Z.quot f (2 ^ unit_exp).

(** The float is representable: rounding leaves it unchanged. *)
Definition representable (f : float) : Prop := fl 0 f = f.

(** An [int] [c] is greater than the float [f], as real numbers. *)
Definition int_gt (c : Z) (f : float) : Prop := f < c * 2 ^ unit_exp.

(** The float 1.0 and the float nearest to 0.33 (11072963 * 2^-25). *)
Definition one : float := 2 ^ unit_exp.
Definition f033 : float := 11072963 * 2 ^ 124.

End Float32.

(* ------------------------------------------------------------------ *)
(** ** Pixel buffers and frames *)

(** A [uint8_t *]: NULL, or a position in an array of bytes. *)
Inductive pointer : Type :=
| Null
| Ptr (base : list Z) (offset : Z).

(** [p + k]. *)
Definition ptr_add (p : pointer) (k : Z) : pointer :=
  match p with
  | Null => Null
  | Ptr b o => Ptr b (o + k)
  end.

(** [p[i]]; a read outside the array (undefined in C) gives 0. *)
Definition load (p : pointer) (i : Z) : Z :=
  match p with
  | Null => 0
  | Ptr b o => if o + i <? 0 then 0 else nth (Z.to_nat (o + i)) b 0
  end.

Record AVFrame : Type := {
  data : list pointer;      (* uint8_t *data[]   *)
  linesize : list Z;        (* int linesize[]    *)
  width : Z;
  height : Z;
  pts : Z
}.

(** [av_pixelutils_sad_fn]: block 1, its stride, block 2, its stride. *)
Definition sad_fn : Type := pointer -> Z -> pointer -> Z -> Z.

(** Modelled from the spec: the 8x8 SAD primitive that
    [av_pixelutils_get_sad_fn(3, 3, 0, ctx)] of libavutil hands out, absent
    from the sources at hand: the "sum of absolute differences between two
    equally-shaped pixel blocks". *)
Definition sad_8x8 : sad_fn := fun src1 stride1 src2 stride2 =>
  fold_left
    (fun sum y =>
       fold_left
         (fun sum x =>
            sum + Z.abs (load src1 (y * stride1 + x) - load src2 (y * stride2 + x)))
         [0; 1; 2; 3; 4; 5; 6; 7] sum)
    [0; 1; 2; 3; 4; 5; 6; 7] 0.

(* ------------------------------------------------------------------ *)
(** ** The filter context *)

Record DecimateContext : Type := {
  lo : Z;
  hi : Z;
  frac : Float32.float;
  min_dup_count : Z;
  dup_count : Z;
  hsub : Z;
  vsub : Z;
  ref : option AVFrame;
  sad : sad_fn
}.

Definition set_dup_count (n : Z) (d : DecimateContext) : DecimateContext :=
  {| lo := lo d; hi := hi d; frac := frac d; min_dup_count := min_dup_count d;
     dup_count := n; hsub := hsub d; vsub := vsub d; ref := ref d; sad := sad d |}.

Definition set_ref (r : option AVFrame) (d : DecimateContext) : DecimateContext :=
  {| lo := lo d; hi := hi d; frac := frac d; min_dup_count := min_dup_count d;
     dup_count := dup_count d; hsub := hsub d; vsub := vsub d; ref := r; sad := sad d |}.

Definition set_sub (hs vs : Z) (d : DecimateContext) : DecimateContext :=
  {| lo := lo d; hi := hi d; frac := frac d; min_dup_count := min_dup_count d;
     dup_count := dup_count d; hsub := hs; vsub := vs; ref := ref d; sad := sad d |}.

(** The private context after a successful [init]: the framework zeroes it
    and stores the options [min], [hi], [lo] and [frac]; [init] stores the
    SAD function. *)
Definition new_context (min_ hi_ lo_ : Z) (frac_ : Float32.float) (f : sad_fn)
  : DecimateContext :=
  {| lo := lo_; hi := hi_; frac := frac_; min_dup_count := min_;
     dup_count := 0; hsub := 0; vsub := 0; ref := None; sad := f |}.

(** [init]: fails with [AVERROR(EINVAL)] when no SAD function is available
    ([got] is what [av_pixelutils_get_sad_fn] returned). *)
Definition init (got : option sad_fn) (min_ hi_ lo_ : Z) (frac_ : Float32.float)
  : Z * option DecimateContext :=
  match got with
  | None => (AVERROR EINVAL, None)
  | Some f => (0, Some (new_context min_ hi_ lo_ frac_ f))
  end.

(** [config_input]: the chroma subsampling of the negotiated pixel format. *)
Definition config_input (log2_chroma_w log2_chroma_h : Z) (d : DecimateContext)
  : Z * DecimateContext :=
  (0, set_sub log2_chroma_w log2_chroma_h d).

(** The option table: defaults and ranges. *)
Definition default_min : Z := 10.
Definition default_hi : Z := 64 * 12.
Definition default_lo : Z := 64 * 5.
Definition default_frac : Float32.float := Float32.f033.

Definition option_domain (d : DecimateContext) : Prop :=
  0 <= min_dup_count d <= INT_MAX /\
  INT_MIN <= hi d <= INT_MAX /\
  INT_MIN <= lo d <= INT_MAX /\
  0 <= frac d <= Float32.one.

(* ------------------------------------------------------------------ *)
(** ** Block difference estimator *)

(** Values taken by the variable of [for (v = start; v < stop; v += 4)]. *)
Definition loop_range (start stop : Z) : list Z :=
  map (fun i => start + 4 * Z.of_nat i)
      (seq 0 (Z.to_nat ((stop - start + 3) / 4))).

(** State of the scan: the function has returned, or the loops go on with
    the counter [c]. *)
Inductive scan : Type :=
| Return (r : Z)
| Continue (c : Z).

Section DiffPlanes.

Variable decimate : DecimateContext.
Variables (cur : pointer) (cur_linesize : Z).
Variables (ref_ : pointer) (ref_linesize : Z).

(** [d] at the window whose corner is column [x] of row [y]. *)
Definition window_sad (x y : Z) : Z :=
  sad decimate (ptr_add cur (y * cur_linesize + x)) cur_linesize
               (ptr_add ref_ (y * ref_linesize + x)) ref_linesize.

(** The inner loop, from column [x] on. *)
Fixpoint scan_row (t : Z) (xs : list Z) (y : Z) (c : Z) : scan :=
  match xs with
  | [] => Continue c
  | x :: xs' =>
      let d := window_sad x y in
      if d >? hi decimate then Return 1
      else if d >? lo decimate then
        let c' := c + 1 in
        if c' >? t then Return 1 else scan_row t xs' y c'
      else scan_row t xs' y c
  end.

(** The outer loop, from row [y] on. *)
Fixpoint scan_rows (t : Z) (xs ys : list Z) (c : Z) : scan :=
  match ys with
  | [] => Continue c
  | y :: ys' =>
      match scan_row t xs y c with
      | Return r => Return r
      | Continue c' => scan_rows t xs ys' c'
      end
  end.

(** [(w/16)*(h/16)*decimate->frac] as a float. *)
Definition block_budget (w h : Z) : Float32.float :=
  Float32.mul (Float32.of_int (Z.quot w 16 * Z.quot h 16)) (frac decimate).

(** [int t = (w/16)*(h/16)*decimate->frac;] *)
Definition threshold (w h : Z) : Z := Float32.to_int (block_budget w h).

(** Return 1 if the two planes are different, 0 otherwise. *)
Definition diff_planes (w h : Z) : Z :=
  let t := threshold w h in
  match scan_rows t (loop_range 8 (w - 7)) (loop_range 0 (h - 7)) 0 with
  | Return r => r
  | Continue _ => 0
  end.

End DiffPlanes.

(** Over a list of window corners: does some SAD exceed [hi], and how many
    exceed [lo]. *)
Definition exceeds_hi (decimate : DecimateContext)
    (cur : pointer) (cur_linesize : Z) (ref_ : pointer) (ref_linesize : Z)
    (ps : list (Z * Z)) : bool :=
  existsb (fun p => window_sad decimate cur cur_linesize ref_ ref_linesize
                      (fst p) (snd p) >? hi decimate) ps.

Definition count_lo (decimate : DecimateContext)
    (cur : pointer) (cur_linesize : Z) (ref_ : pointer) (ref_linesize : Z)
    (ps : list (Z * Z)) : Z :=
  Z.of_nat (length (filter
    (fun p => window_sad decimate cur cur_linesize ref_ ref_linesize
                (fst p) (snd p) >? lo decimate) ps)).

(** The scan with the lower thresholds is ahead of the other one: it has
    returned 1, or both go on and its counter is not smaller. *)
Definition ahead (s s' : scan) : Prop :=
  match s, s' with
  | Return r, _ => r = 1
  | Continue c, Continue c' => c' <= c
  | Continue _, Return _ => False
  end.

(** Corners of the sampled windows, in scan order. *)
Definition windows (w h : Z) : list (Z * Z) :=
  flat_map (fun y => map (fun x => (x, y)) (loop_range 8 (w - 7)))
           (loop_range 0 (h - 7)).

(** The decision rule in the words of the specification.  A window is
    sampled when its corner is at a column 8, 12, 16, ... below [w-7] and a
    row 0, 4, 8, ... below [h-7]. *)
Definition sampled (w h x y : Z) : Prop :=
  (8 <= x < w - 7 /\ x mod 4 = 0) /\ (0 <= y < h - 7 /\ y mod 4 = 0).

(** The SAD of the two 8x8 blocks whose corner is column [x] of row [y],
    read off the pixels of the two planes. *)
Definition block_sad (cur : pointer) (cur_linesize : Z)
    (ref_ : pointer) (ref_linesize : Z) (x y : Z) : Z :=
  fold_left
    (fun sum j =>
       fold_left
         (fun sum i =>
            sum + Z.abs (load cur ((y + j) * cur_linesize + (x + i))
                         - load ref_ ((y + j) * ref_linesize + (x + i))))
         [0; 1; 2; 3; 4; 5; 6; 7] sum)
    [0; 1; 2; 3; 4; 5; 6; 7] 0.

(** The count [c] exceeds the budget [T = floor(w/16) * floor(h/16) * frac]:
    with [T] the exact product, and with [T] the product as binary32
    arithmetic gives it (the block count converted to float, the float
    product, each rounded to nearest even). *)
Definition exceeds_exact_budget (w h : Z) (frac_ : Float32.float) (c : Z) : Prop :=
  (w / 16) * (h / 16) * frac_ < c * 2 ^ 149.

Definition exceeds_rounded_budget (w h : Z) (frac_ : Float32.float) (c : Z) : Prop :=
  Float32.int_gt c (Float32.mul (Float32.of_int ((w / 16) * (h / 16))) frac_).

(** Different: some sampled window has a SAD above [hi], or the number of
    sampled windows with a SAD above [lo] exceeds the budget.  [SAD x y] is
    the score of the window at column [x], row [y]. *)
Definition spec_decision (hi_ lo_ : Z) (exceeds_budget : Z -> Prop)
    (SAD : Z -> Z -> Z) (w h : Z) : Prop :=
  (exists x y, sampled w h x y /\ hi_ < SAD x y) \/
  exceeds_budget
    (Z.of_nat (length (filter (fun p => lo_ <? SAD (fst p) (snd p)) (windows w h)))).

(** Two planes with equal pixels over the [w] columns and [h] rows that are
    compared. *)
Definition same_pixels (cur : pointer) (cur_linesize : Z)
    (ref_ : pointer) (ref_linesize : Z) (w h : Z) : Prop :=
  forall col row, 0 <= col < w -> 0 <= row < h ->
    load cur (row * cur_linesize + col) = load ref_ (row * ref_linesize + col).

(** The planes of [is_frame_different], from plane number [plane] on;
    [planes] lists the remaining [data] and [linesize] entries of [ref]. *)
Fixpoint planes_differ (decimate : DecimateContext) (cur ref_ : AVFrame)
    (plane : nat) (planes : list (pointer * Z)) : Z :=
  match planes with
  | [] => 0
  | (Null, _) :: _ => 0
  | (Ptr b o, ls) :: rest =>
      if ls =? 0 then 0
      else
        let is_chroma := orb (Nat.eqb plane 1) (Nat.eqb plane 2) in
        let vsub_ := if is_chroma then vsub decimate else 0 in
        let hsub_ := if is_chroma then hsub decimate else 0 in
        if diff_planes decimate
             (nth plane (data cur) Null) (nth plane (linesize cur) 0)
             (Ptr b o) ls
             (AV_CEIL_RSHIFT (width ref_) hsub_)
             (AV_CEIL_RSHIFT (height ref_) vsub_) =? 0
        then planes_differ decimate cur ref_ (S plane) rest
        else 1
  end.

(** Tell if the frame is different with respect to the reference frame. *)
Definition is_frame_different (decimate : DecimateContext) (cur ref_ : AVFrame) : Z :=
  planes_differ decimate cur ref_ 0 (combine (data ref_) (linesize ref_)).

(* ------------------------------------------------------------------ *)
(** ** Run-length decimator *)

(** What the surroundings answer during one call of [filter_frame]. *)
Record Env : Type := {
  clone_out_ok : bool;   (* av_frame_clone(cur) for the output succeeds     *)
  clone_ref_ok : bool;   (* av_frame_clone(cur) for the reference succeeds  *)
  ff_ret : Z             (* what ff_filter_frame returns                    *)
}.

(** Modelled from the spec: [av_frame_clone] of libavutil, absent from the
    sources at hand: frames are "reference-counted/clonable", and "frame
    cloning fails" on resource exhaustion; the clone is then NULL. *)
Definition av_frame_clone (ok : bool) (f : AVFrame) : option AVFrame :=
  if ok then Some f else None.

(** Calls that leave the filter. *)
Inductive event : Type :=
| FilterFrame (f : option AVFrame)   (* ff_filter_frame(outlink, f)  *)
| FrameFree (f : AVFrame).           (* av_frame_free of a held frame *)

(** [av_frame_free(&p)]: nothing happens on NULL. *)
Definition av_frame_free (p : option AVFrame) : list event :=
  match p with
  | None => []
  | Some f => [FrameFree f]
  end.

(** [r && is_frame_different(ctx, cur, r)] for a reference [r] that may be
    NULL. *)
Definition differs (decimate : DecimateContext) (r : option AVFrame)
    (cur : AVFrame) : bool :=
  match r with
  | None => false
  | Some p => negb (is_frame_different decimate cur p =? 0)
  end.

(** [filter_frame]: return value, context afterwards, calls made. *)
Definition filter_frame (e : Env) (decimate : DecimateContext) (cur : AVFrame)
  : Z * DecimateContext * list event :=
  let d1 :=
    if differs decimate (ref decimate) cur then set_dup_count 0 decimate
    else set_dup_count (int_wrap (dup_count decimate + 1)) decimate in
  let keep := dup_count d1 =? min_dup_count d1 in
  let out := if keep then [FilterFrame (av_frame_clone (clone_out_ok e) cur)] else [] in
  if keep && (ff_ret e <? 0) then (ff_ret e, d1, out)
  else
    let d2 := set_ref (av_frame_clone (clone_ref_ok e) cur) d1 in
    (0, d2, out ++ av_frame_free (ref d1) ++ av_frame_free (Some cur)).

(** [uninit]. *)
Definition uninit (decimate : DecimateContext) : DecimateContext * list event :=
  (set_ref None decimate, av_frame_free (ref decimate)).

(** A stream: the frames with what the surroundings answer for each.  A
    negative return value ends the stream. *)
Fixpoint run (decimate : DecimateContext) (input : list (Env * AVFrame))
  : Z * DecimateContext * list event :=
  match input with
  | [] => (0, decimate, [])
  | (e, cur) :: rest =>
      match filter_frame e decimate cur with
      | (ret, d', evs) =>
          if ret <? 0 then (ret, d', evs)
          else
            match run d' rest with
            | (ret', d'', evs') => (ret', d'', evs ++ evs')
            end
      end
  end.

(** The frames handed to [ff_filter_frame], in order. *)
Fixpoint emitted (evs : list event) : list (option AVFrame) :=
  match evs with
  | [] => []
  | FilterFrame f :: rest => f :: emitted rest
  | FrameFree _ :: rest => emitted rest
  end.

(** Nothing fails: both clones succeed and the downstream link accepts. *)
Definition nominal (e : Env) : Prop :=
  clone_out_ok e = true /\ clone_ref_ok e = true /\ 0 <= ff_ret e.

Definition env_ok : Env := {| clone_out_ok := true; clone_ref_ok := true; ff_ret := 0 |}.

(** A run of frames without failures. *)
Definition feed (frames : list AVFrame) : list (Env * AVFrame) :=
  map (fun f => (env_ok, f)) frames.

(** The frames released by [av_frame_free], in order. *)
Fixpoint released (evs : list event) : list AVFrame :=
  match evs with
  | [] => []
  | FilterFrame _ :: rest => released rest
  | FrameFree f :: rest => f :: released rest
  end.

(** Every frame of the list is classified identical to the frame before it
    ([r] is the reference the first one meets; no reference counts as
    identical, as in [filter_frame]). *)
Fixpoint all_same (decimate : DecimateContext) (r : option AVFrame)
    (frames : list AVFrame) : Prop :=
  match frames with
  | [] => True
  | f :: rest => differs decimate r f = false /\ all_same decimate (Some f) rest
  end.

(** The frames of the list classified different from the frame before them. *)
Fixpoint changes (decimate : DecimateContext) (r : option AVFrame)
    (frames : list AVFrame) : list AVFrame :=
  match frames with
  | [] => []
  | f :: rest =>
      (if differs decimate r f then [f] else []) ++ changes decimate (Some f) rest
  end.

(** The three parts of what [filter_frame] and [run] give back. *)
Definition ret_of (r : Z * DecimateContext * list event) : Z := fst (fst r).
Definition ctx_of (r : Z * DecimateContext * list event) : DecimateContext := snd (fst r).
Definition events_of (r : Z * DecimateContext * list event) : list event := snd r.

(** The counter after a frame that meets the reference [r] and the counter
    [k]. *)
Definition next_count (decimate : DecimateContext) (k : Z) (r : option AVFrame)
    (cur : AVFrame) : Z :=
  if differs decimate r cur then 0 else int_wrap (k + 1).

(** The frames a run without failures hands downstream, from the counter
    [k] and the reference [r]. *)
Fixpoint emissions (decimate : DecimateContext) (k : Z) (r : option AVFrame)
    (frames : list AVFrame) : list (option AVFrame) :=
  match frames with
  | [] => []
  | f :: rest =>
      let k' := next_count decimate k r f in
      (if k' =? min_dup_count decimate then [Some f] else [])
        ++ emissions decimate k' (Some f) rest
  end.

(** A single-plane frame of constant brightness, for the examples. *)
Definition flat_frame (v w h t : Z) : AVFrame :=
  {| data := [Ptr (repeat v (Z.to_nat (w * h))) 0];
     linesize := [w]; width := w; height := h; pts := t |}.

(** Frames and contexts of the examples: dark and bright frames of 16 by 16
    pixels, numbered by their timestamp. *)
Definition dark (t : Z) : AVFrame := flat_frame 0 16 16 t.
Definition bright (t : Z) : AVFrame := flat_frame 255 16 16 t.

Definition scenario_context : DecimateContext :=
  new_context 3 default_hi default_lo default_frac sad_8x8.

Definition scenario_frames : list AVFrame :=
  [dark 1; dark 2; dark 3; dark 4; bright 5; bright 6; bright 7; bright 8].

Definition gray_plane : pointer := Ptr (repeat 128 256%nat) 0.

(** An environment in which every clone fails. *)
Definition env_no_memory : Env :=
  {| clone_out_ok := false; clone_ref_ok := false; ff_ret := 0 |}.

(** An environment in which the downstream link refuses the frame with
    [AVERROR(ENOMEM)]. *)
Definition env_refused : Env :=
  {| clone_out_ok := true; clone_ref_ok := true; ff_ret := AVERROR 12 |}.

(** The default context after one frame. *)
Definition context_after_one : DecimateContext :=
  ctx_of (filter_frame env_ok
            (new_context default_min default_hi default_lo default_frac sad_8x8)
            (dark 1)).

(** Plane number [plane] of [is_frame_different]: is it a chroma plane, is
    it there in the reference, what size is scanned, and what [diff_planes]
    returns for it. *)
Definition is_chroma_plane (plane : nat) : bool :=
  orb (Nat.eqb plane 1) (Nat.eqb plane 2).

Definition plane_present (ref_ : AVFrame) (plane : nat) : Prop :=
  nth plane (data ref_) Null <> Null /\ nth plane (linesize ref_) 0 <> 0.

Definition plane_width (decimate : DecimateContext) (ref_ : AVFrame) (plane : nat) : Z :=
  AV_CEIL_RSHIFT (width ref_) (if is_chroma_plane plane then hsub decimate else 0).

Definition plane_height (decimate : DecimateContext) (ref_ : AVFrame) (plane : nat) : Z :=
  AV_CEIL_RSHIFT (height ref_) (if is_chroma_plane plane then vsub decimate else 0).

Definition plane_result (decimate : DecimateContext) (cur ref_ : AVFrame)
    (plane : nat) : Z :=
  diff_planes decimate
    (nth plane (data cur) Null) (nth plane (linesize cur) 0)
    (nth plane (data ref_) Null) (nth plane (linesize ref_) 0)
    (plane_width decimate ref_ plane) (plane_height decimate ref_ plane).

(** Some plane, with every plane up to it present in the reference, is
    judged different. *)
Definition some_plane_differs (decimate : DecimateContext) (cur ref_ : AVFrame)
    (first : nat) : Prop :=
  exists i, (first <= i)%nat /\
            (forall j, (first <= j <= i)%nat -> plane_present ref_ j) /\
            plane_result decimate cur ref_ i <> 0.

(** A black plane of 16 by 16 pixels, and the same with its 8 leftmost
    columns white. *)
Definition black_plane : pointer := Ptr (repeat 0 256%nat) 0.
Definition banded_plane : pointer :=
  Ptr (flat_map (fun _ => repeat 255 8%nat ++ repeat 0 8%nat) (seq 0 16)) 0.

(** The float nearest to 0.7 (11744051 * 2^-24). *)
Definition frac_07 : Float32.float := 11744051 * 2 ^ 125.

(** A black plane of 160 by 16 pixels, and the same with eight white pixels
    in its first row, placed so that seven sampled windows see two of them. *)
Definition black_160x16 : pointer := Ptr (repeat 0 2560%nat) 0.
Definition spotted_160x16 : pointer :=
  Ptr (map (fun i => if existsb (Nat.eqb i) [8; 9; 20; 21; 36; 37; 52; 53]%nat
                     then 255 else 0)
           (seq 0 2560)) 0.

(* ================================================================== *)
(** * Facts *)

Module Float32Facts.
Import Float32.

Lemma pow2_pos (s : Z) : 0 <= s -> 0 < 2 ^ s.
Proof. intros; apply Z.pow_pos_nonneg; lia. Qed.

Lemma rne_bounds (s p : Z) : p / 2 ^ s <= rne s p <= p / 2 ^ s + 1.
Proof.
  unfold rne.
  destruct (2 * (p mod 2 ^ s) <? 2 ^ s); [lia|].
  destruct (2 ^ s <? 2 * (p mod 2 ^ s)); [lia|].
  destruct (Z.even (p / 2 ^ s)); lia.
Qed.

Lemma rne_mono (s p p' : Z) :
  0 <= s -> p <= p' -> rne s p <= rne s p'.
Proof.
  intros Hs Hp.
  pose proof (pow2_pos s Hs) as Hu.
  pose proof (rne_bounds s p) as B.
  pose proof (rne_bounds s p') as B'.
  assert (Hq : p / 2 ^ s <= p' / 2 ^ s) by (apply Z.div_le_mono; lia).
  destruct (Z.eq_dec (p / 2 ^ s) (p' / 2 ^ s)) as [E|E]; [|lia].
  assert (Hr : p mod 2 ^ s <= p' mod 2 ^ s).
  { rewrite !Z.mod_eq by lia. rewrite E. lia. }
  unfold rne. rewrite E.
  destruct (2 * (p mod 2 ^ s) <? 2 ^ s) eqn:A1;
    destruct (2 * (p' mod 2 ^ s) <? 2 ^ s) eqn:A2;
    destruct (2 ^ s <? 2 * (p mod 2 ^ s)) eqn:A3;
    destruct (2 ^ s <? 2 * (p' mod 2 ^ s)) eqn:A4;
    destruct (Z.even (p' / 2 ^ s)); lia.
Qed.

Lemma rne_0 (s : Z) : 0 <= s -> rne s 0 = 0.
Proof.
  intros Hs. pose proof (pow2_pos s Hs). unfold rne.
  rewrite Z.mod_0_l, Z.div_0_l by lia.
  destruct (2 * 0 <? 2 ^ s) eqn:A; [reflexivity | lia].
Qed.

Lemma round24_nonneg (emin p : Z) : 0 <= emin -> 0 <= p -> 0 <= round24 emin p.
Proof.
  intros He Hp. unfold round24.
  set (s := Z.max emin (Z.log2 p - 23)).
  assert (0 <= s) by lia.
  pose proof (pow2_pos s ltac:(lia)).
  pose proof (rne_bounds s p).
  assert (0 <= p / 2 ^ s) by (apply Z.div_pos; lia).
  apply Z.mul_nonneg_nonneg; lia.
Qed.

Lemma round24_mono (emin p p' : Z) :
  0 <= emin -> 0 <= p -> p <= p' -> round24 emin p <= round24 emin p'.
Proof.
  intros He Hp Hpp.
  destruct (Z.eq_dec p 0) as [->|Hp0].
  { unfold round24 at 1. rewrite rne_0 by lia. rewrite Z.mul_0_l.
    apply round24_nonneg; lia. }
  unfold round24.
  pose proof (Z.log2_le_mono p p' Hpp) as Hl.
  set (s := Z.max emin (Z.log2 p - 23)).
  set (s' := Z.max emin (Z.log2 p' - 23)).
  assert (Hs : 0 <= s) by lia.
  assert (Hss : s <= s') by lia.
  destruct (Z.eq_dec s s') as [E|E].
  - rewrite <- E. apply Z.mul_le_mono_nonneg_r.
    + pose proof (pow2_pos s Hs); lia.
    + apply rne_mono; lia.
  - assert (Es' : s' = Z.log2 p' - 23) by lia.
    assert (Hlt : Z.log2 p + 1 <= s + 24) by lia.
    pose proof (Z.log2_spec p ltac:(lia)) as [_ Hup].
    pose proof (Z.log2_spec p' ltac:(lia)) as [Hlow _].
    pose proof (pow2_pos s Hs) as Hu.
    pose proof (pow2_pos s' ltac:(lia)) as Hu'.
    (* left side is at most 2^(s+24) *)
    assert (L : rne s p * 2 ^ s <= 2 ^ (s + 24)).
    { pose proof (rne_bounds s p) as [_ B].
      assert (p < 2 ^ (s + 24)).
      { eapply Z.lt_le_trans; [exact Hup|].
        apply Z.pow_le_mono_r; lia. }
      assert (p / 2 ^ s < 2 ^ 24).
      { apply Z.div_lt_upper_bound; [lia|].
        rewrite <- Z.pow_add_r by lia. exact H. }
      rewrite Z.pow_add_r by lia.
      rewrite (Z.mul_comm (2 ^ s)).
      apply Z.mul_le_mono_nonneg_r; lia. }
    (* right side is at least 2^(s'+23) *)
    assert (R : 2 ^ (s' + 23) <= rne s' p' * 2 ^ s').
    { pose proof (rne_bounds s' p') as [B _].
      assert (2 ^ 23 <= p' / 2 ^ s').
      { apply Z.div_le_lower_bound; [lia|].
        rewrite <- Z.pow_add_r by lia.
        replace (s' + 23) with (Z.log2 p') by lia. exact Hlow. }
      rewrite Z.pow_add_r by lia.
      rewrite (Z.mul_comm (2 ^ s')).
      apply Z.mul_le_mono_nonneg_r; lia. }
    assert (2 ^ (s + 24) <= 2 ^ (s' + 23)) by (apply Z.pow_le_mono_r; lia).
    lia.
Qed.

Lemma fl_nonneg (emin p : Z) : 0 <= emin -> 0 <= p -> 0 <= fl emin p.
Proof.
  intros He Hp. unfold fl.
  pose proof (round24_nonneg emin (Z.abs p) He (Z.abs_nonneg p)).
  apply Z.mul_nonneg_nonneg; lia.
Qed.

Lemma fl_0 (emin : Z) : fl emin 0 = 0.
Proof. reflexivity. Qed.

Lemma fl_mono (emin p p' : Z) : 0 <= emin -> p <= p' -> fl emin p <= fl emin p'.
Proof.
  intros He Hpp. unfold fl.
  pose proof (round24_nonneg emin (Z.abs p) He (Z.abs_nonneg p)) as N.
  pose proof (round24_nonneg emin (Z.abs p') He (Z.abs_nonneg p')) as N'.
  destruct (Z.lt_trichotomy p 0) as [Hn|[Hn|Hn]];
    destruct (Z.lt_trichotomy p' 0) as [Hn'|[Hn'|Hn']]; try lia.
  - pose proof (round24_mono emin (Z.abs p') (Z.abs p) He ltac:(lia) ltac:(lia)). lia.
  - pose proof (round24_mono emin (Z.abs p) (Z.abs p') He ltac:(lia) ltac:(lia)). lia.
Qed.


Lemma of_int_nonneg (n : Z) : 0 <= n -> 0 <= of_int n.
Proof.
  intros. unfold of_int. apply fl_nonneg; [lia|].
  apply Z.mul_nonneg_nonneg; [lia|]. unfold unit_exp. lia.
Qed.

Lemma mul_0_l (b : float) : mul 0 b = 0.
Proof. reflexivity. Qed.

Lemma mul_nonneg (a b : float) : 0 <= a -> 0 <= b -> 0 <= mul a b.
Proof.
  intros. unfold mul. apply Z.div_pos.
  - apply fl_nonneg; [unfold unit_exp; lia|]. apply Z.mul_nonneg_nonneg; lia.
  - unfold unit_exp. lia.
Qed.

Lemma mul_mono_r (a b b' : float) : 0 <= a -> b <= b' -> mul a b <= mul a b'.
Proof.
  intros. unfold mul. apply Z.div_le_mono; [unfold unit_exp; lia|].
  apply fl_mono; [unfold unit_exp; lia|].
  apply Z.mul_le_mono_nonneg_l; lia.
Qed.

Lemma to_int_mono (f f' : float) : f <= f' -> to_int f <= to_int f'.
Proof.
  intros. unfold to_int. apply Z.quot_le_mono; [unfold unit_exp; lia | lia].
Qed.

(** Comparing an integer count with a non-negative float: truncating the
    float first changes nothing. *)
Lemma to_int_gt (c : Z) (f : float) : 0 <= f -> (to_int f < c <-> int_gt c f).
Proof.
  intros Hf. unfold to_int, int_gt.
  assert (U : 0 < 2 ^ unit_exp) by (unfold unit_exp; lia).
  rewrite Z.quot_div_nonneg by lia.
  pose proof (Z.div_mod f (2 ^ unit_exp) ltac:(lia)).
  pose proof (Z.mod_pos_bound f (2 ^ unit_exp) U).
  split; intros; nia.
Qed.

End Float32Facts.

(* ------------------------------------------------------------------ *)
(** ** The loops of [diff_planes] *)

Lemma loop_range_In (start stop v : Z) :
  In v (loop_range start stop) <->
  start <= v < stop /\ (v - start) mod 4 = 0.
Proof.
  unfold loop_range. rewrite in_map_iff. split.
  - intros (i & <- & Hi). apply in_seq in Hi.
    assert (Hb : Z.of_nat i < (stop - start + 3) / 4) by lia.
    pose proof (Z.mul_div_le (stop - start + 3) 4 ltac:(lia)).
    split; [lia|].
    replace (start + 4 * Z.of_nat i - start) with (Z.of_nat i * 4) by lia.
    apply Z.mod_mul; lia.
  - intros ([Hlo Hhi] & Hm).
    pose proof (Z.div_mod (v - start) 4 ltac:(lia)) as Hd.
    rewrite Hm in Hd.
    exists (Z.to_nat ((v - start) / 4)).
    assert (0 <= (v - start) / 4) by (apply Z.div_pos; lia).
    split; [lia|].
    apply in_seq.
    assert ((v - start) / 4 + 1 <= (stop - start + 3) / 4)
      by (apply Z.div_le_lower_bound; lia).
    lia.
Qed.

Lemma loop_range_NoDup (start stop : Z) : NoDup (loop_range start stop).
Proof.
  unfold loop_range. apply Injective_map_NoDup.
  - intros i j H. lia.
  - apply seq_NoDup.
Qed.

Lemma loop_range_nil (start stop : Z) : stop <= start -> loop_range start stop = [].
Proof.
  intros H. unfold loop_range.
  assert ((stop - start + 3) / 4 <= 0).
  { assert ((stop - start + 3) / 4 < 1); [|lia].
    apply Z.div_lt_upper_bound; lia. }
  replace (Z.to_nat ((stop - start + 3) / 4)) with 0%nat by lia.
  reflexivity.
Qed.

Lemma mod4_shift (x : Z) : (x - 8) mod 4 = x mod 4.
Proof.
  replace (x - 8) with (x + (-2) * 4) by lia. apply Z.mod_add. lia.
Qed.

Lemma windows_In (w h x y : Z) :
  In (x, y) (windows w h) <->
  (8 <= x < w - 7 /\ x mod 4 = 0) /\ (0 <= y < h - 7 /\ y mod 4 = 0).
Proof.
  unfold windows. rewrite in_flat_map. split.
  - intros (y' & Hy & Hx). apply in_map_iff in Hx as (x' & E & Hx).
    inversion E; subst x' y'.
    apply loop_range_In in Hx, Hy.
    rewrite Z.sub_0_r in Hy. rewrite mod4_shift in Hx. tauto.
  - intros (Hx & Hy). exists y. split.
    + apply loop_range_In. rewrite Z.sub_0_r. exact Hy.
    + apply (in_map (fun x' => (x', y))).
      apply loop_range_In. rewrite mod4_shift. exact Hx.
Qed.

Lemma windows_NoDup (w h : Z) : NoDup (windows w h).
Proof.
  unfold windows.
  pose proof (loop_range_NoDup 0 (h - 7)) as Hy.
  induction Hy as [|y ys Hnin Hnd IH]; simpl; [constructor|].
  apply NoDup_app.
  - apply Injective_map_NoDup; [|apply loop_range_NoDup].
    intros a b E. now inversion E.
  - exact IH.
  - intros [x' y'] H1 H2.
    apply in_map_iff in H1 as (x1 & E1 & _). inversion E1; subst.
    apply in_flat_map in H2 as (y2 & Hy2 & H2).
    apply in_map_iff in H2 as (x2 & E2 & _). inversion E2; subst.
    contradiction.
Qed.

(** A sampled window implies a plane of at least 16 columns and 8 rows. *)
Lemma windows_size (w h x y : Z) : In (x, y) (windows w h) -> 16 <= w /\ 8 <= h.
Proof. intros H. apply windows_In in H. lia. Qed.

(* ------------------------------------------------------------------ *)
(** ** What the scan computes *)

Section ScanFacts.

Variable decimate : DecimateContext.
Variables (cur : pointer) (cur_linesize : Z).
Variables (ref_ : pointer) (ref_linesize : Z).

Let row (xs : list Z) (y : Z) : list (Z * Z) := map (fun x => (x, y)) xs.
Let grid (xs ys : list Z) : list (Z * Z) := flat_map (row xs) ys.
Let over_hi := exceeds_hi decimate cur cur_linesize ref_ ref_linesize.
Let n_lo := count_lo decimate cur cur_linesize ref_ ref_linesize.
Let d_at := window_sad decimate cur cur_linesize ref_ ref_linesize.

Lemma count_lo_nonneg (ps : list (Z * Z)) : 0 <= n_lo ps.
Proof. unfold n_lo, count_lo. lia. Qed.

Lemma count_lo_app (ps qs : list (Z * Z)) : n_lo (ps ++ qs) = n_lo ps + n_lo qs.
Proof. unfold n_lo, count_lo. rewrite filter_app, length_app. lia. Qed.

Lemma exceeds_hi_app (ps qs : list (Z * Z)) :
  over_hi (ps ++ qs) = over_hi ps || over_hi qs.
Proof. unfold over_hi, exceeds_hi. apply existsb_app. Qed.

Lemma scan_row_spec (t : Z) (xs : list Z) (y : Z) :
  forall c, c <= t ->
    scan_row decimate cur cur_linesize ref_ ref_linesize t xs y c =
    if over_hi (row xs y) || (t <? c + n_lo (row xs y)) then Return 1
    else Continue (c + n_lo (row xs y)).
Proof.
  induction xs as [|x xs IH]; intros c Hc.
  - simpl. unfold n_lo, count_lo. simpl. rewrite Z.add_0_r.
    destruct (t <? c) eqn:E; [lia | reflexivity].
  - cbn [scan_row row map].
    change (map (fun x0 => (x0, y)) xs) with (row xs y).
    unfold over_hi, exceeds_hi; cbn [existsb fst snd]; fold over_hi.
    fold (exceeds_hi decimate cur cur_linesize ref_ ref_linesize (row xs y)).
    fold over_hi.
    unfold n_lo at 1 2, count_lo; cbn [filter fst snd].
    destruct (window_sad decimate cur cur_linesize ref_ ref_linesize x y
                >? hi decimate) eqn:Ehi; [reflexivity|].
    destruct (window_sad decimate cur cur_linesize ref_ ref_linesize x y
                >? lo decimate) eqn:Elo.
    + cbn [length].
      fold (count_lo decimate cur cur_linesize ref_ ref_linesize (row xs y)).
      fold n_lo.
      pose proof (count_lo_nonneg (row xs y)) as Hn.
      replace (c + Z.of_nat (S (length (filter
                (fun p => window_sad decimate cur cur_linesize ref_ ref_linesize
                            (fst p) (snd p) >? lo decimate) (row xs y)))))
        with (c + 1 + n_lo (row xs y))
        by (unfold n_lo, count_lo; lia).
      destruct (c + 1 >? t) eqn:Ec.
      * cbn [orb].
        replace (t <? c + 1 + n_lo (row xs y)) with true
          by (symmetry; apply Z.ltb_lt; lia).
        now rewrite orb_true_r.
      * cbn [orb]. apply IH. lia.
    + cbn [orb].
      fold (count_lo decimate cur cur_linesize ref_ ref_linesize (row xs y)).
      fold n_lo. apply IH. exact Hc.
Qed.

Lemma scan_rows_spec (t : Z) (xs ys : list Z) :
  forall c, c <= t ->
    scan_rows decimate cur cur_linesize ref_ ref_linesize t xs ys c =
    if over_hi (grid xs ys) || (t <? c + n_lo (grid xs ys)) then Return 1
    else Continue (c + n_lo (grid xs ys)).
Proof.
  induction ys as [|y ys IH]; intros c Hc.
  - simpl. unfold n_lo, count_lo. simpl. rewrite Z.add_0_r.
    destruct (t <? c) eqn:E; [lia | reflexivity].
  - cbn [scan_rows grid flat_map].
    change (flat_map (row xs) ys) with (grid xs ys).
    rewrite exceeds_hi_app, count_lo_app.
    rewrite scan_row_spec by exact Hc.
    pose proof (count_lo_nonneg (row xs y)) as Hr.
    pose proof (count_lo_nonneg (grid xs ys)) as Hg.
    destruct (over_hi (row xs y)); [reflexivity|].
    cbn [orb].
    destruct (t <? c + n_lo (row xs y)) eqn:E1.
    + replace (t <? c + (n_lo (row xs y) + n_lo (grid xs ys))) with true
        by (symmetry; apply Z.ltb_lt; lia).
      now rewrite orb_true_r.
    + rewrite IH by lia. now rewrite Z.add_assoc.
Qed.

(** The result of [diff_planes] when the threshold is not negative. *)
Lemma diff_planes_spec (w h : Z) :
  0 <= threshold decimate w h ->
  diff_planes decimate cur cur_linesize ref_ ref_linesize w h =
  if over_hi (windows w h) || (threshold decimate w h <? n_lo (windows w h))
  then 1 else 0.
Proof.
  intros Ht. unfold diff_planes.
  rewrite scan_rows_spec by exact Ht.
  change (grid (loop_range 8 (w - 7)) (loop_range 0 (h - 7))) with (windows w h).
  rewrite Z.add_0_l.
  destruct (over_hi (windows w h) || (threshold decimate w h <? n_lo (windows w h)));
    reflexivity.
Qed.

End ScanFacts.

(* ------------------------------------------------------------------ *)
(** ** The block budget *)

Lemma blocks_nonneg (w h : Z) : 0 <= w -> 0 <= h -> 0 <= Z.quot w 16 * Z.quot h 16.
Proof.
  intros. apply Z.mul_nonneg_nonneg; apply Z.quot_pos; lia.
Qed.

Lemma block_budget_nonneg (d : DecimateContext) (w h : Z) :
  0 <= frac d -> 0 <= w -> 0 <= h -> 0 <= block_budget d w h.
Proof.
  intros. unfold block_budget.
  apply Float32Facts.mul_nonneg; [|assumption].
  apply Float32Facts.of_int_nonneg. now apply blocks_nonneg.
Qed.

Lemma threshold_nonneg (d : DecimateContext) (w h : Z) :
  0 <= frac d -> 0 <= w -> 0 <= h -> 0 <= threshold d w h.
Proof.
  intros. unfold threshold, Float32.to_int.
  apply Z.quot_pos; [now apply block_budget_nonneg | unfold Float32.unit_exp; lia].
Qed.

Lemma threshold_mono (d d' : DecimateContext) (w h : Z) :
  0 <= w -> 0 <= h -> frac d <= frac d' -> threshold d w h <= threshold d' w h.
Proof.
  intros. unfold threshold, block_budget.
  apply Float32Facts.to_int_mono, Float32Facts.mul_mono_r; [|assumption].
  apply Float32Facts.of_int_nonneg. now apply blocks_nonneg.
Qed.


(* ------------------------------------------------------------------ *)
(** ** Scans that never trigger, and scans compared *)

Section QuietScan.

Variable decimate : DecimateContext.
Variables (cur : pointer) (cur_linesize : Z).
Variables (ref_ : pointer) (ref_linesize : Z).

Let d_at := window_sad decimate cur cur_linesize ref_ ref_linesize.

Lemma scan_row_quiet (t : Z) (xs : list Z) (y c : Z) :
  (forall x, In x xs -> d_at x y <= hi decimate /\ d_at x y <= lo decimate) ->
  scan_row decimate cur cur_linesize ref_ ref_linesize t xs y c = Continue c.
Proof.
  induction xs as [|x xs IH]; intros H; [reflexivity|].
  cbn [scan_row].
  destruct (H x (or_introl eq_refl)) as [H1 H2]. unfold d_at in H1, H2.
  destruct (window_sad decimate cur cur_linesize ref_ ref_linesize x y >? hi decimate)
    eqn:E1; [lia|].
  destruct (window_sad decimate cur cur_linesize ref_ ref_linesize x y >? lo decimate)
    eqn:E2; [lia|].
  apply IH. intros x' Hx'. apply H. now right.
Qed.

Lemma scan_rows_quiet (t : Z) (xs ys : list Z) (c : Z) :
  (forall x y, In x xs -> In y ys ->
               d_at x y <= hi decimate /\ d_at x y <= lo decimate) ->
  scan_rows decimate cur cur_linesize ref_ ref_linesize t xs ys c = Continue c.
Proof.
  induction ys as [|y ys IH]; intros H; [reflexivity|].
  cbn [scan_rows]. rewrite scan_row_quiet.
  - apply IH. intros x y' Hx Hy'. apply H; [exact Hx | now right].
  - intros x Hx. apply H; [exact Hx | now left].
Qed.

Lemma diff_planes_quiet (w h : Z) :
  (forall x y, In (x, y) (windows w h) ->
               d_at x y <= hi decimate /\ d_at x y <= lo decimate) ->
  diff_planes decimate cur cur_linesize ref_ ref_linesize w h = 0.
Proof.
  intros H. unfold diff_planes. rewrite scan_rows_quiet; [reflexivity|].
  intros x y Hx Hy. apply H. unfold windows.
  apply in_flat_map. exists y. split; [exact Hy|].
  now apply (in_map (fun x' => (x', y))).
Qed.

Lemma diff_planes_no_window (w h : Z) :
  w < 16 \/ h < 8 ->
  diff_planes decimate cur cur_linesize ref_ ref_linesize w h = 0.
Proof.
  intros H. apply diff_planes_quiet. intros x y Hin.
  apply windows_size in Hin. lia.
Qed.

End QuietScan.

Section ComparedScans.

Variables decimate decimate' : DecimateContext.
Variables (cur : pointer) (cur_linesize : Z).
Variables (ref_ : pointer) (ref_linesize : Z).

Hypothesis same_sad : sad decimate' = sad decimate.
Hypothesis hi_le : hi decimate <= hi decimate'.
Hypothesis lo_le : lo decimate <= lo decimate'.

Lemma scan_row_ahead (t t' : Z) (xs : list Z) (y : Z) :
  t <= t' ->
  forall c c', c' <= c ->
    ahead (scan_row decimate cur cur_linesize ref_ ref_linesize t xs y c)
          (scan_row decimate' cur cur_linesize ref_ ref_linesize t' xs y c').
Proof.
  intros Ht. induction xs as [|x xs IH]; intros c c' Hc; [exact Hc|].
  cbn [scan_row].
  assert (E : window_sad decimate' cur cur_linesize ref_ ref_linesize x y =
              window_sad decimate cur cur_linesize ref_ ref_linesize x y)
    by (unfold window_sad; now rewrite same_sad).
  rewrite E.
  set (d := window_sad decimate cur cur_linesize ref_ ref_linesize x y).
  destruct (d >? hi decimate) eqn:H1; [reflexivity|].
  destruct (d >? hi decimate') eqn:H1'; [lia|].
  destruct (d >? lo decimate) eqn:H2; destruct (d >? lo decimate') eqn:H2'; try lia.
  - destruct (c + 1 >? t) eqn:H3; [reflexivity|].
    destruct (c' + 1 >? t') eqn:H3'; [lia|].
    apply IH. lia.
  - destruct (c + 1 >? t) eqn:H3; [reflexivity|].
    apply IH. lia.
  - apply IH. exact Hc.
Qed.

Lemma scan_rows_ahead (t t' : Z) (xs ys : list Z) :
  t <= t' ->
  forall c c', c' <= c ->
    ahead (scan_rows decimate cur cur_linesize ref_ ref_linesize t xs ys c)
          (scan_rows decimate' cur cur_linesize ref_ ref_linesize t' xs ys c').
Proof.
  intros Ht. induction ys as [|y ys IH]; intros c c' Hc; [exact Hc|].
  cbn [scan_rows].
  pose proof (scan_row_ahead t t' xs y Ht c c' Hc) as A.
  destruct (scan_row decimate cur cur_linesize ref_ ref_linesize t xs y c) as [r|k];
    destruct (scan_row decimate' cur cur_linesize ref_ ref_linesize t' xs y c')
      as [r'|k']; cbn [ahead] in A |- *; try assumption; try contradiction.
  apply IH. exact A.
Qed.

End ComparedScans.

(* ------------------------------------------------------------------ *)
(** ** The 8x8 SAD *)

Lemma fold_left_fixed {A B : Type} (F : A -> B -> A) (l : list B) (a : A) :
  (forall s y, In y l -> F s y = s) -> fold_left F l a = a.
Proof.
  revert a. induction l as [|y l IH]; intros a H; [reflexivity|].
  cbn [fold_left]. rewrite H by now left.
  apply IH. intros s y' Hy'. apply H. now right.
Qed.

Lemma load_ptr_add (p : pointer) (k i : Z) : load (ptr_add p k) i = load p (k + i).
Proof.
  destruct p as [|b o]; [reflexivity|]. cbn [ptr_add load].
  now rewrite Z.add_assoc.
Qed.

Lemma sad_8x8_equal_blocks (src1 : pointer) (stride1 : Z) (src2 : pointer) (stride2 : Z) :
  (forall i j, 0 <= i < 8 -> 0 <= j < 8 ->
     load src1 (j * stride1 + i) = load src2 (j * stride2 + i)) ->
  sad_8x8 src1 stride1 src2 stride2 = 0.
Proof.
  intros H. unfold sad_8x8.
  apply fold_left_fixed. intros s y Hy.
  apply fold_left_fixed. intros s' x Hx.
  rewrite H by (cbn [In] in Hx, Hy; lia).
  rewrite Z.sub_diag. cbn [Z.abs]. lia.
Qed.

Lemma window_sad_same_pixels (d : DecimateContext)
    (cur : pointer) (cls : Z) (ref_ : pointer) (rls : Z) (w h x y : Z) :
  sad d = sad_8x8 ->
  same_pixels cur cls ref_ rls w h ->
  In (x, y) (windows w h) ->
  window_sad d cur cls ref_ rls x y = 0.
Proof.
  intros Hsad Hsame Hin. apply windows_In in Hin.
  unfold window_sad. rewrite Hsad.
  apply sad_8x8_equal_blocks. intros i j Hi Hj.
  rewrite !load_ptr_add.
  replace (y * cls + x + (j * cls + i)) with ((y + j) * cls + (x + i)) by ring.
  replace (y * rls + x + (j * rls + i)) with ((y + j) * rls + (x + i)) by ring.
  apply Hsame; lia.
Qed.

(* ------------------------------------------------------------------ *)
(** ** The estimator: claims *)

(** C5.  With the planes, their size and the SAD function fixed, raising
    [hi], [lo] or [frac] never turns "identical" into "different": a result
    of 1 under the higher thresholds is a result of 1 under the lower ones. *)
Theorem diff_planes_monotone (d d' : DecimateContext)
    (cur : pointer) (cls : Z) (ref_ : pointer) (rls : Z) (w h : Z) :
  sad d' = sad d ->
  hi d <= hi d' -> lo d <= lo d' -> frac d <= frac d' ->
  diff_planes d' cur cls ref_ rls w h = 1 ->
  diff_planes d cur cls ref_ rls w h = 1.
Proof.
  intros Hsad Hhi Hlo Hfrac H'.
  destruct (Z_lt_ge_dec w 16) as [Hw|Hw].
  { rewrite diff_planes_no_window in H' by lia. discriminate. }
  destruct (Z_lt_ge_dec h 8) as [Hh|Hh].
  { rewrite diff_planes_no_window in H' by lia. discriminate. }
  assert (Ht : threshold d w h <= threshold d' w h)
    by (apply threshold_mono; lia).
  unfold diff_planes in *.
  pose proof (scan_rows_ahead d d' cur cls ref_ rls Hsad Hhi Hlo
                (threshold d w h) (threshold d' w h)
                (loop_range 8 (w - 7)) (loop_range 0 (h - 7)) Ht 0 0 (Z.le_refl 0)) as A.
  destruct (scan_rows d cur cls ref_ rls (threshold d w h)
              (loop_range 8 (w - 7)) (loop_range 0 (h - 7)) 0) as [r|k];
    destruct (scan_rows d' cur cls ref_ rls (threshold d' w h)
                (loop_range 8 (w - 7)) (loop_range 0 (h - 7)) 0) as [r'|k'];
    cbn [ahead] in A; try assumption; try contradiction; discriminate.
Qed.


(* ------------------------------------------------------------------ *)
(** ** The decimator: one call *)

Section SameThresholds.

Variables d d' : DecimateContext.
Hypothesis same_hi : hi d' = hi d.
Hypothesis same_lo : lo d' = lo d.
Hypothesis same_frac : frac d' = frac d.
Hypothesis same_sad : sad d' = sad d.
Hypothesis same_hsub : hsub d' = hsub d.
Hypothesis same_vsub : vsub d' = vsub d.

Lemma scan_row_ext cur cls ref_ rls t xs y c :
  scan_row d' cur cls ref_ rls t xs y c = scan_row d cur cls ref_ rls t xs y c.
Proof.
  revert c. induction xs as [|x xs IH]; intros c; [reflexivity|].
  cbn [scan_row]. unfold window_sad. rewrite same_sad, same_hi, same_lo, !IH.
  reflexivity.
Qed.

Lemma scan_rows_ext cur cls ref_ rls t xs ys c :
  scan_rows d' cur cls ref_ rls t xs ys c = scan_rows d cur cls ref_ rls t xs ys c.
Proof.
  revert c. induction ys as [|y ys IH]; intros c; [reflexivity|].
  cbn [scan_rows]. rewrite scan_row_ext.
  destruct (scan_row d cur cls ref_ rls t xs y c); [reflexivity | apply IH].
Qed.

Lemma diff_planes_ext cur cls ref_ rls w h :
  diff_planes d' cur cls ref_ rls w h = diff_planes d cur cls ref_ rls w h.
Proof.
  unfold diff_planes, threshold, block_budget.
  now rewrite same_frac, scan_rows_ext.
Qed.

Lemma planes_differ_ext cur ref_ plane planes :
  planes_differ d' cur ref_ plane planes = planes_differ d cur ref_ plane planes.
Proof.
  revert plane. induction planes as [|[p ls] planes IH]; intros plane; [reflexivity|].
  cbn [planes_differ]. destruct p as [|b o]; [reflexivity|].
  rewrite same_hsub, same_vsub, diff_planes_ext, IH. reflexivity.
Qed.

Lemma differs_ext r cur : differs d' r cur = differs d r cur.
Proof.
  destruct r as [p|]; [|reflexivity].
  unfold differs, is_frame_different. now rewrite planes_differ_ext.
Qed.

End SameThresholds.

Lemma differs_step (d : DecimateContext) (n : Z) (r r' : option AVFrame) (cur : AVFrame) :
  differs (set_ref r' (set_dup_count n d)) r cur = differs d r cur.
Proof. apply differs_ext; reflexivity. Qed.

Lemma emitted_app (l1 l2 : list event) : emitted (l1 ++ l2) = emitted l1 ++ emitted l2.
Proof.
  induction l1 as [|[f|f] l1 IH]; cbn [emitted app]; [reflexivity| |]; now rewrite IH.
Qed.

Lemma released_app (l1 l2 : list event) : released (l1 ++ l2) = released l1 ++ released l2.
Proof.
  induction l1 as [|[f|f] l1 IH]; cbn [released app]; [reflexivity| |]; now rewrite IH.
Qed.

Lemma emitted_free (p : option AVFrame) : emitted (av_frame_free p) = [].
Proof. destruct p; reflexivity. Qed.

Lemma emissions_step (d : DecimateContext) (n : Z) (r' : option AVFrame)
    (frames : list AVFrame) :
  forall k r,
    emissions (set_ref r' (set_dup_count n d)) k r frames = emissions d k r frames.
Proof.
  induction frames as [|f fs IH]; intros k r; [reflexivity|].
  cbn [emissions]. unfold next_count. rewrite differs_step.
  cbn [min_dup_count set_ref set_dup_count]. now rewrite IH.
Qed.

(** One call when nothing fails. *)
Lemma filter_frame_nominal (e : Env) (d : DecimateContext) (cur : AVFrame) :
  nominal e ->
  let k' := next_count d (dup_count d) (ref d) cur in
  filter_frame e d cur =
  (0, set_ref (Some cur) (set_dup_count k' d),
   (if k' =? min_dup_count d then [FilterFrame (Some cur)] else [])
     ++ av_frame_free (ref d) ++ [FrameFree cur]).
Proof.
  intros (Ho & Hr & Hf). unfold filter_frame, next_count.
  rewrite Ho, Hr.
  destruct (differs d (ref d) cur); cbn [set_dup_count dup_count min_dup_count ref].
  - destruct (0 =? min_dup_count d); cbn [andb];
      [destruct (ff_ret e <? 0) eqn:E; [lia|] |]; reflexivity.
  - destruct (int_wrap (dup_count d + 1) =? min_dup_count d); cbn [andb];
      [destruct (ff_ret e <? 0) eqn:E; [lia|] |]; reflexivity.
Qed.

(** A run when nothing fails: it comes to its end and hands downstream the
    frames of [emissions]. *)
Lemma run_nominal (input : list (Env * AVFrame)) :
  forall d, Forall (fun ef => nominal (fst ef)) input ->
    ret_of (run d input) = 0 /\
    emitted (events_of (run d input)) =
      emissions d (dup_count d) (ref d) (map snd input).
Proof.
  induction input as [|[e cur] input IH]; intros d Hn; [split; reflexivity|].
  inversion Hn as [|? ? He Hrest]; subst. cbn [fst] in He.
  cbn [run map snd emissions].
  rewrite (filter_frame_nominal e d cur He).
  set (k' := next_count d (dup_count d) (ref d) cur).
  cbn zeta. cbn [Z.ltb Z.compare].
  specialize (IH (set_ref (Some cur) (set_dup_count k' d)) Hrest).
  destruct (run (set_ref (Some cur) (set_dup_count k' d)) input) as [[ret' d''] evs'].
  unfold ret_of, events_of in *. cbn [fst snd] in *.
  destruct IH as [IH1 IH2]. split; [exact IH1|].
  rewrite !emitted_app, emitted_free, IH2. cbn [emitted app].
  rewrite app_nil_r.
  f_equal.
  - destruct (k' =? min_dup_count d); reflexivity.
  - cbn [dup_count ref set_ref set_dup_count]. apply emissions_step.
Qed.

Lemma int_wrap_small (z : Z) : INT_MIN <= z <= INT_MAX -> int_wrap z = z.
Proof.
  unfold INT_MIN, INT_MAX, int_wrap. intros H.
  rewrite Z.mod_small; lia.
Qed.

Lemma nominal_env_ok : nominal env_ok.
Proof. unfold nominal, env_ok; cbn. repeat split. lia. Qed.

Lemma feed_nominal (frames : list AVFrame) :
  Forall (fun ef => nominal (fst ef)) (feed frames).
Proof.
  unfold feed. apply Forall_forall. intros ef H.
  apply in_map_iff in H as (f & <- & _). exact nominal_env_ok.
Qed.

Lemma feed_frames (frames : list AVFrame) : map snd (feed frames) = frames.
Proof.
  unfold feed. rewrite map_map. cbn [snd]. apply map_id.
Qed.

(* ------------------------------------------------------------------ *)
(** ** The decimator: runs *)

(** Frames all classified identical: the counter goes up by one per frame
    and meets [min_dup_count] at most once. *)
Lemma emissions_all_same (d : DecimateContext) (frames : list AVFrame) :
  forall k r,
    all_same d r frames ->
    0 <= k -> k + Z.of_nat (length frames) <= INT_MAX ->
    emissions d k r frames =
      if k <? min_dup_count d then
        match nth_error frames (Z.to_nat (min_dup_count d - k - 1)) with
        | Some f => [Some f]
        | None => []
        end
      else [].
Proof.
  induction frames as [|f fs IH]; intros k r Hs Hk Hlen.
  - cbn [emissions]. destruct (k <? min_dup_count d); [|reflexivity].
    now destruct (Z.to_nat (min_dup_count d - k - 1)).
  - destruct Hs as [Hf Hs]. cbn [length] in Hlen.
    cbn [emissions]. unfold next_count. rewrite Hf.
    rewrite int_wrap_small by (unfold INT_MIN; lia).
    rewrite (IH (k + 1) (Some f) Hs) by lia.
    destruct (Z.eqb_spec (k + 1) (min_dup_count d)) as [E|E].
    + replace (k + 1 <? min_dup_count d) with false by (symmetry; lia).
      replace (k <? min_dup_count d) with true by (symmetry; lia).
      replace (min_dup_count d - k - 1) with 0 by lia. reflexivity.
    + destruct (k + 1 <? min_dup_count d) eqn:E1.
      * replace (k <? min_dup_count d) with true by (symmetry; lia).
        replace (Z.to_nat (min_dup_count d - k - 1))
          with (S (Z.to_nat (min_dup_count d - (k + 1) - 1))) by lia.
        reflexivity.
      * replace (k <? min_dup_count d) with false by (symmetry; lia).
        reflexivity.
Qed.

(** With [min_dup_count = 0] the counter meets it exactly when it is reset. *)
Lemma emissions_min_zero (d : DecimateContext) (frames : list AVFrame) :
  min_dup_count d = 0 ->
  forall k r,
    0 <= k -> k + Z.of_nat (length frames) <= INT_MAX ->
    emissions d k r frames = map Some (changes d r frames).
Proof.
  intros Hm. induction frames as [|f fs IH]; intros k r Hk Hlen; [reflexivity|].
  cbn [length] in Hlen. cbn [emissions changes]. unfold next_count. rewrite Hm.
  rewrite map_app. destruct (differs d r f).
  - cbn [Z.eqb map]. f_equal. apply IH; lia.
  - rewrite int_wrap_small by (unfold INT_MIN; lia).
    replace (k + 1 =? 0) with false by (symmetry; lia).
    cbn [map app]. apply IH; lia.
Qed.

(** C1 (amended).  From the initial state, a run of N frames (N within the
    range of the [int] counter) that meets no failure (clones succeed, the
    downstream link accepts) and whose frames are each classified identical
    to the retained reference hands downstream exactly one frame, the one at
    position [min_dup_count], when [1 <= min_dup_count <= N]; it hands
    downstream nothing when [N < min_dup_count], and nothing either when
    [min_dup_count = 0]. *)
Theorem run_of_identical_frames (d : DecimateContext) (input : list (Env * AVFrame)) :
  ref d = None -> dup_count d = 0 ->
  Forall (fun ef => nominal (fst ef)) input ->
  all_same d None (map snd input) ->
  Z.of_nat (length input) <= INT_MAX ->
  (1 <= min_dup_count d <= Z.of_nat (length input) ->
     exists f, nth_error (map snd input) (Z.to_nat (min_dup_count d - 1)) = Some f /\
               emitted (events_of (run d input)) = [Some f]) /\
  (Z.of_nat (length input) < min_dup_count d ->
     emitted (events_of (run d input)) = []) /\
  (min_dup_count d <= 0 ->
     emitted (events_of (run d input)) = []).
Proof.
  intros Hr Hk Hn Hs Hlen.
  destruct (run_nominal input d Hn) as [_ ->].
  rewrite Hr, Hk.
  rewrite (emissions_all_same d (map snd input) 0 None Hs)
    by (rewrite ?length_map; lia).
  replace (min_dup_count d - 0 - 1) with (min_dup_count d - 1) by lia.
  split; [|split]; intros HN.
  - replace (0 <? min_dup_count d) with true by (symmetry; lia).
    destruct (nth_error (map snd input) (Z.to_nat (min_dup_count d - 1))) as [f|] eqn:E.
    + exists f. split; reflexivity.
    + apply nth_error_None in E. rewrite length_map in E. lia.
  - destruct (0 <? min_dup_count d); [|reflexivity].
    destruct (nth_error (map snd input) (Z.to_nat (min_dup_count d - 1))) as [f|] eqn:E;
      [|reflexivity].
    assert (nth_error (map snd input) (Z.to_nat (min_dup_count d - 1)) <> None)
      as E' by congruence.
    apply nth_error_Some in E'. rewrite length_map in E'. lia.
  - replace (0 <? min_dup_count d) with false by (symmetry; lia). reflexivity.
Qed.

(** C3 (amended).  With [min_dup_count = 0], a run from the initial state
    that meets no failure (its length within the range of the [int] counter)
    hands downstream exactly the frames classified different from the frame
    before them; the first frame and every frame classified identical to its
    predecessor are dropped. *)
Theorem min_zero_emits_changes (d : DecimateContext) (input : list (Env * AVFrame)) :
  min_dup_count d = 0 ->
  ref d = None -> dup_count d = 0 ->
  Forall (fun ef => nominal (fst ef)) input ->
  Z.of_nat (length input) <= INT_MAX ->
  emitted (events_of (run d input)) = map Some (changes d None (map snd input)).
Proof.
  intros Hm Hr Hk Hn Hlen.
  destruct (run_nominal input d Hn) as [_ ->].
  rewrite Hr, Hk. apply emissions_min_zero; [exact Hm | lia |].
  rewrite length_map. lia.
Qed.

(** C2 (amended).  With [min_dup_count = 3], [hi = 768], [lo = 320] and
    [frac = 0.33], eight frames of which the 2nd, 3rd and 4th are each
    classified identical to the frame before them, the 5th is classified
    different, and the 6th, 7th and 8th identical again, give the output
    [F3, F8]: the first frame counts 1 (no reference), the frame that breaks
    a run counts 0. *)
Theorem scenario_output (hs vs : Z) (f : sad_fn)
    (F1 F2 F3 F4 F5 F6 F7 F8 : AVFrame) :
  let d := set_sub hs vs (new_context 3 768 320 Float32.f033 f) in
  is_frame_different d F2 F1 = 0 ->
  is_frame_different d F3 F2 = 0 ->
  is_frame_different d F4 F3 = 0 ->
  is_frame_different d F5 F4 <> 0 ->
  is_frame_different d F6 F5 = 0 ->
  is_frame_different d F7 F6 = 0 ->
  is_frame_different d F8 F7 = 0 ->
  emitted (events_of (run d (feed [F1; F2; F3; F4; F5; F6; F7; F8]))) =
    [Some F3; Some F8].
Proof.
  intros d H2 H3 H4 H5 H6 H7 H8.
  destruct (run_nominal (feed [F1; F2; F3; F4; F5; F6; F7; F8]) d
              (feed_nominal _)) as [_ ->].
  rewrite feed_frames.
  assert (E5 : negb (is_frame_different d F5 F4 =? 0) = true)
    by (destruct (Z.eqb_spec (is_frame_different d F5 F4) 0); [contradiction|reflexivity]).
  cbn [emissions]. unfold next_count, differs.
  change (ref d) with (@None AVFrame). change (dup_count d) with 0.
  change (min_dup_count d) with 3.
  rewrite H2, H3, H4, E5, H6, H7, H8.
  reflexivity.
Qed.

(* ------------------------------------------------------------------ *)
(** ** The decimator: one call, claims *)

Lemma filter_frame_count (e : Env) (d : DecimateContext) (cur : AVFrame) :
  dup_count (ctx_of (filter_frame e d cur)) = next_count d (dup_count d) (ref d) cur.
Proof.
  unfold filter_frame, ctx_of, next_count.
  destruct (differs d (ref d) cur); cbn [set_dup_count dup_count min_dup_count];
    match goal with |- context [?a && ?b] => destruct (a && b) end; reflexivity.
Qed.

Lemma filter_frame_emitted (e : Env) (d : DecimateContext) (cur : AVFrame) :
  emitted (events_of (filter_frame e d cur)) =
  if next_count d (dup_count d) (ref d) cur =? min_dup_count d
  then [av_frame_clone (clone_out_ok e) cur] else [].
Proof.
  unfold filter_frame, events_of, next_count.
  destruct (differs d (ref d) cur); cbn [set_dup_count dup_count min_dup_count];
    match goal with |- context [?a =? ?b] => destruct (a =? b) end; cbn [andb];
    try destruct (ff_ret e <? 0); cbn [snd];
    rewrite ?emitted_app, ?emitted_free; reflexivity.
Qed.

(** The two ways out of [filter_frame]. *)
Lemma filter_frame_cases (e : Env) (d : DecimateContext) (cur : AVFrame) :
  let r := filter_frame e d cur in
  (ret_of r < 0 <->
     dup_count (ctx_of r) = min_dup_count d /\ ff_ret e < 0) /\
  (ret_of r < 0 ->
     ret_of r = ff_ret e /\
     ref (ctx_of r) = ref d /\
     events_of r = [FilterFrame (av_frame_clone (clone_out_ok e) cur)]) /\
  (~ ret_of r < 0 ->
     ret_of r = 0 /\
     ref (ctx_of r) = av_frame_clone (clone_ref_ok e) cur /\
     released (events_of r) = released (av_frame_free (ref d)) ++ [cur] /\
     (clone_ref_ok e = false -> ref (ctx_of r) = None)).
Proof.
  unfold filter_frame, ret_of, ctx_of, events_of.
  set (d1 := if differs d (ref d) cur
             then set_dup_count 0 d
             else set_dup_count (int_wrap (dup_count d + 1)) d).
  assert (Hm : min_dup_count d1 = min_dup_count d)
    by (unfold d1; destruct (differs d (ref d) cur); reflexivity).
  assert (Hr : ref d1 = ref d)
    by (unfold d1; destruct (differs d (ref d) cur); reflexivity).
  cbn zeta. rewrite Hm, Hr.
  destruct (Z.eqb_spec (dup_count d1) (min_dup_count d)) as [Ek|Ek];
    destruct (Z.ltb_spec (ff_ret e) 0) as [Ef|Ef]; cbn [andb fst snd].
  - repeat split; try tauto; try lia.
  - repeat split; try lia; try tauto.
    + cbn [app released]. rewrite released_app.
      destruct (ref d); reflexivity.
    + intros ->. reflexivity.
  - repeat split; try lia; try tauto.
    + cbn [app]. rewrite released_app. destruct (ref d); reflexivity.
    + intros ->. reflexivity.
  - repeat split; try lia; try tauto.
    + cbn [app]. rewrite released_app. destruct (ref d); reflexivity.
    + intros ->. reflexivity.
Qed.

(** C8 (amended).  [filter_frame] fails exactly when the frame is due for
    emission and [ff_filter_frame] returns a negative code: that code is
    returned after the single emission attempt and the retained reference is
    left as it was, neither released nor replaced.  A failed clone is not
    detected: in every other case the call returns 0, the old reference is
    released and the result of [av_frame_clone] becomes the reference, so
    that a failed clone leaves the decimator without a reference. *)
Theorem filter_frame_failure (e : Env) (d : DecimateContext) (cur : AVFrame) :
  let r := filter_frame e d cur in
  (ret_of r < 0 <->
     dup_count (ctx_of r) = min_dup_count d /\ ff_ret e < 0) /\
  (ret_of r < 0 ->
     ret_of r = ff_ret e /\
     ref (ctx_of r) = ref d /\
     events_of r = [FilterFrame (av_frame_clone (clone_out_ok e) cur)]) /\
  (~ ret_of r < 0 ->
     ret_of r = 0 /\
     ref (ctx_of r) = av_frame_clone (clone_ref_ok e) cur /\
     released (events_of r) = released (av_frame_free (ref d)) ++ [cur] /\
     (clone_ref_ok e = false -> ref (ctx_of r) = None)).
Proof. exact (filter_frame_cases e d cur). Qed.

(** C9 (amended).  For every context and every frame whose call returns 0,
    the reference is replaced once, whether the frame was emitted or
    dropped: the previous reference, when there is one, is released, and the
    clone of the current frame is the new reference.  The call returns
    something else only when the frame is due for emission and
    [ff_filter_frame] returns a negative code: it then returns that code, the
    counter has been written, and the reference is neither released nor
    replaced. *)
Theorem reference_replaced (e : Env) (d : DecimateContext) (cur : AVFrame) :
  (ret_of (filter_frame e d cur) = 0 ->
     ref (ctx_of (filter_frame e d cur)) = av_frame_clone (clone_ref_ok e) cur /\
     (clone_ref_ok e = true -> ref (ctx_of (filter_frame e d cur)) = Some cur) /\
     released (events_of (filter_frame e d cur)) =
       match ref d with
       | Some old => [old; cur]
       | None => [cur]
       end /\
     (emitted (events_of (filter_frame e d cur)) = [] \/
      emitted (events_of (filter_frame e d cur)) =
        [av_frame_clone (clone_out_ok e) cur])) /\
  (ret_of (filter_frame e d cur) <> 0 ->
     ret_of (filter_frame e d cur) = ff_ret e /\ ff_ret e < 0 /\
     dup_count (ctx_of (filter_frame e d cur)) = min_dup_count d /\
     dup_count (ctx_of (filter_frame e d cur)) =
       next_count d (dup_count d) (ref d) cur /\
     emitted (events_of (filter_frame e d cur)) =
       [av_frame_clone (clone_out_ok e) cur] /\
     ref (ctx_of (filter_frame e d cur)) = ref d /\
     released (events_of (filter_frame e d cur)) = []).
Proof.
  destruct (filter_frame_cases e d cur) as (Hiff & Hfail & Hok). cbv zeta in *.
  split.
  - intros H0.
    destruct Hok as (_ & Hnew & Hrel & _); [lia|].
    split; [exact Hnew|]. split; [|split].
    + intros Hc. rewrite Hnew, Hc. reflexivity.
    + rewrite Hrel. destruct (ref d); reflexivity.
    + rewrite filter_frame_emitted.
      destruct (next_count d (dup_count d) (ref d) cur =? min_dup_count d); auto.
  - intros Hne.
    assert (Hneg : ret_of (filter_frame e d cur) < 0).
    { destruct (Z_lt_ge_dec (ret_of (filter_frame e d cur)) 0) as [Hl|Hg]; [exact Hl|].
      destruct Hok as (H0 & _); [lia|]. contradiction. }
    destruct (Hfail Hneg) as (Hret & Href & Hev).
    destruct (proj1 Hiff Hneg) as (Hk & Hff).
    split; [exact Hret|]. split; [exact Hff|]. split; [exact Hk|].
    split; [apply filter_frame_count|].
    rewrite Hev. cbn [emitted released]. repeat split. exact Href.
Qed.

(** C9, false as stated.  A frame due for emission that the downstream link
    refuses: the counter is written, the reference held before stays, and
    nothing is released. *)
Lemma refused_frame_reference_not_replaced :
  let d0 := new_context 2 default_hi default_lo default_frac sad_8x8 in
  let d1 := ctx_of (filter_frame env_ok d0 (dark 1)) in
  let r := filter_frame env_refused d1 (dark 2) in
  ref d1 = Some (dark 1) /\
  dup_count d1 = 1 /\
  dup_count (ctx_of r) = 2 /\
  ret_of r = -12 /\
  ref (ctx_of r) = Some (dark 1) /\
  pts (dark 1) <> pts (dark 2) /\
  released (events_of r) = [].
Proof. vm_compute. repeat split; (reflexivity || discriminate). Qed.

(** C10.  The first frame of a stream (no reference, counter 0) is handed
    to [ff_filter_frame] when [min_dup_count = 1], because the counter is 1
    when it is compared; for every other [min_dup_count] the first frame is
    not emitted. *)
Theorem first_frame_emitted_iff_min_one (e : Env) (d : DecimateContext) (cur : AVFrame) :
  ref d = None -> dup_count d = 0 ->
  dup_count (ctx_of (filter_frame e d cur)) = 1 /\
  (min_dup_count d = 1 ->
     emitted (events_of (filter_frame e d cur)) =
       [av_frame_clone (clone_out_ok e) cur]) /\
  (min_dup_count d <> 1 ->
     emitted (events_of (filter_frame e d cur)) = []).
Proof.
  intros Hr Hk.
  rewrite filter_frame_count, filter_frame_emitted.
  unfold next_count. rewrite Hr, Hk. cbn [differs].
  change (int_wrap (0 + 1)) with 1.
  split; [reflexivity|]. split; intros H.
  - rewrite H. reflexivity.
  - destruct (Z.eqb_spec 1 (min_dup_count d)); [congruence | reflexivity].
Qed.

(* ------------------------------------------------------------------ *)
(** ** Concrete streams and planes *)

(** The float next to 0.33: no binary32 number is nearer to 33/100. *)
Example f033_nearest :
  Float32.representable Float32.f033 /\
  2 * Z.abs (100 * Float32.f033 - 33 * 2 ^ 149) <= 100 * 2 ^ 124.
Proof. split; vm_compute; [reflexivity | discriminate]. Qed.

(** The budget of a 1920 by 1080 plane under the default fraction. *)
Example budget_1080p : threshold scenario_context 1920 1080 = 2653.
Proof. vm_compute. reflexivity. Qed.

(** The budget is the rounded product: 11 blocks times the float
    10676410 * 2^-24 is 7 - 2^-23, which binary32 rounds to 7. *)
Example budget_rounds_to_nearest :
  let d := new_context 10 768 320 (10676410 * 2 ^ 125) sad_8x8 in
  Float32.representable (frac d) /\
  11 * frac d < 7 * 2 ^ 149 /\
  block_budget d 176 16 = 7 * 2 ^ 149 /\
  threshold d 176 16 = 7.
Proof. vm_compute. repeat split; reflexivity. Qed.

(** [init] without a SAD function. *)
Example init_without_sad :
  init None default_min default_hi default_lo default_frac = (-22, None).
Proof. reflexivity. Qed.

(** A frame due for emission that the downstream link refuses: the error
    code comes back and the reference is the one held before. *)
Example refused_frame_keeps_reference :
  let d0 := new_context 2 default_hi default_lo default_frac sad_8x8 in
  let d1 := ctx_of (filter_frame env_ok d0 (dark 1)) in
  let r := filter_frame env_refused d1 (dark 2) in
  ret_of r = -12 /\
  ref (ctx_of r) = Some (dark 1) /\
  dup_count (ctx_of r) = 2 /\
  events_of r = [FilterFrame (Some (dark 2))].
Proof. vm_compute. repeat split; reflexivity. Qed.

(** C1, false as stated.  With [min_dup_count = 0], three frames all
    classified identical (N = 3 >= 0) give no emission at all. *)
Lemma identical_run_min_zero_emits_nothing :
  let d := new_context 0 default_hi default_lo default_frac sad_8x8 in
  let frames := [dark 1; dark 2; dark 3] in
  all_same d None frames /\
  min_dup_count d <= Z.of_nat (length frames) /\
  emitted (events_of (run d (feed frames))) = [].
Proof. vm_compute. repeat split; discriminate. Qed.

Lemma run_of_identical_frames_witness :
  let d := new_context 2 default_hi default_lo default_frac sad_8x8 in
  (1 <= min_dup_count d <= 3 ->
     exists f, nth_error [dark 1; dark 2; dark 3] (Z.to_nat (min_dup_count d - 1)) = Some f /\
               emitted (events_of (run d (feed [dark 1; dark 2; dark 3]))) = [Some f]) /\
  (3 < min_dup_count d ->
     emitted (events_of (run d (feed [dark 1; dark 2; dark 3]))) = []) /\
  (min_dup_count d <= 0 ->
     emitted (events_of (run d (feed [dark 1; dark 2; dark 3]))) = []).
Proof.
  intros d.
  apply (run_of_identical_frames d (feed [dark 1; dark 2; dark 3])).
  - reflexivity.
  - reflexivity.
  - apply feed_nominal.
  - vm_compute. repeat split.
  - vm_compute. discriminate.
Defined.

(** C2, false as stated.  Four dark frames followed by four bright ones are
    classified as the scenario says, and the output is not [F4, F7]. *)
Lemma scenario_output_is_not_4_7 :
  let d := scenario_context in
  is_frame_different d (dark 2) (dark 1) = 0 /\
  is_frame_different d (dark 3) (dark 2) = 0 /\
  is_frame_different d (dark 4) (dark 3) = 0 /\
  is_frame_different d (bright 5) (dark 4) <> 0 /\
  is_frame_different d (bright 6) (bright 5) = 0 /\
  is_frame_different d (bright 7) (bright 6) = 0 /\
  is_frame_different d (bright 8) (bright 7) = 0 /\
  emitted (events_of (run d (feed scenario_frames))) <> [Some (dark 4); Some (bright 7)] /\
  map (option_map pts) (emitted (events_of (run d (feed scenario_frames)))) = [Some 3; Some 8].
Proof.
  cbv zeta.
  assert (E : map (option_map pts)
                (emitted (events_of (run scenario_context (feed scenario_frames)))) =
              [Some 3; Some 8]) by (vm_compute; reflexivity).
  split; [vm_compute; reflexivity|].
  split; [vm_compute; reflexivity|].
  split; [vm_compute; reflexivity|].
  split; [vm_compute; discriminate|].
  split; [vm_compute; reflexivity|].
  split; [vm_compute; reflexivity|].
  split; [vm_compute; reflexivity|].
  split; [|exact E].
  intros H. rewrite H in E. clear H. vm_compute in E. discriminate E.
Qed.

Lemma scenario_output_witness :
  emitted (events_of (run (set_sub 0 0 (new_context 3 768 320 Float32.f033 sad_8x8))
                          (feed [dark 1; dark 2; dark 3; dark 4;
                                 bright 5; bright 6; bright 7; bright 8]))) =
    [Some (dark 3); Some (bright 8)].
Proof.
  refine (scenario_output 0 0 sad_8x8
            (dark 1) (dark 2) (dark 3) (dark 4)
            (bright 5) (bright 6) (bright 7) (bright 8) _ _ _ _ _ _ _);
    vm_compute; (reflexivity || discriminate).
Defined.

(** C3, false as stated.  With [min_dup_count = 0] the call for the first
    frame of a stream makes no emission. *)
Lemma min_zero_first_frame_dropped :
  let d := new_context 0 default_hi default_lo default_frac sad_8x8 in
  ret_of (filter_frame env_ok d (dark 1)) = 0 /\
  emitted (events_of (filter_frame env_ok d (dark 1))) = [].
Proof. vm_compute. split; reflexivity. Qed.

Lemma min_zero_emits_changes_witness :
  let d := new_context 0 default_hi default_lo default_frac sad_8x8 in
  emitted (events_of (run d (feed scenario_frames))) =
    map Some (changes d None (map snd (feed scenario_frames))).
Proof.
  intros d. apply (min_zero_emits_changes d (feed scenario_frames)).
  - reflexivity.
  - reflexivity.
  - reflexivity.
  - apply feed_nominal.
  - vm_compute. discriminate.
Defined.

Lemma diff_planes_monotone_witness :
  let d := new_context 10 768 320 Float32.f033 sad_8x8 in
  let d' := new_context 10 1000 400 Float32.one sad_8x8 in
  (hi d <= hi d' /\ lo d <= lo d' /\ frac d <= frac d') /\
  diff_planes d (Ptr (repeat 255 256%nat) 0) 16 (Ptr (repeat 0 256%nat) 0) 16 16 16 = 1.
Proof.
  intros d d'. split.
  - vm_compute. repeat split; discriminate.
  - apply (diff_planes_monotone d d').
    + unfold d, d'. cbn [sad new_context]. reflexivity.
    + vm_compute. discriminate.
    + vm_compute. discriminate.
    + vm_compute. discriminate.
    + vm_compute. reflexivity.
Defined.

(** C6, false as stated.  [hi] and [lo] range over all of [int]: with
    [hi = -1], or with [lo = -1] and [frac = 0], a plane compared with itself
    is declared different. *)
Lemma identical_planes_declared_different :
  same_pixels gray_plane 16 gray_plane 16 16 16 /\
  option_domain (new_context 10 (-1) 320 Float32.f033 sad_8x8) /\
  diff_planes (new_context 10 (-1) 320 Float32.f033 sad_8x8)
              gray_plane 16 gray_plane 16 16 16 = 1 /\
  option_domain (new_context 10 768 (-1) 0 sad_8x8) /\
  diff_planes (new_context 10 768 (-1) 0 sad_8x8)
              gray_plane 16 gray_plane 16 16 16 = 1.
Proof.
  split; [|split; [|split; [|split]]].
  - intros col row _ _. reflexivity.
  - vm_compute. repeat split; discriminate.
  - vm_compute. reflexivity.
  - vm_compute. repeat split; discriminate.
  - vm_compute. reflexivity.
Qed.


(** C8, false as stated.  Every clone fails, and the call returns 0: the
    reference held before is gone, none is held, the counter has moved. *)
Lemma clone_failure_returns_success :
  clone_ref_ok env_no_memory = false /\
  ref context_after_one = Some (dark 1) /\
  ret_of (filter_frame env_no_memory context_after_one (dark 2)) = 0 /\
  ref (ctx_of (filter_frame env_no_memory context_after_one (dark 2))) = None /\
  dup_count (ctx_of (filter_frame env_no_memory context_after_one (dark 2))) = 2.
Proof. vm_compute. repeat split; reflexivity. Qed.

Lemma reference_replaced_witness :
  ref (ctx_of (filter_frame env_ok context_after_one (dark 2))) = Some (dark 2) /\
  released (events_of (filter_frame env_ok context_after_one (dark 2))) = [dark 1; dark 2].
Proof.
  destruct (reference_replaced env_ok context_after_one (dark 2)) as (H & _).
  destruct H as (H1 & _ & H3 & _).
  - vm_compute. reflexivity.
  - split; [exact H1 | exact H3].
Defined.

Lemma first_frame_emitted_iff_min_one_witness :
  let d := new_context 1 default_hi default_lo default_frac sad_8x8 in
  emitted (events_of (filter_frame env_ok d (dark 1))) = [Some (dark 1)].
Proof.
  intros d.
  destruct (first_frame_emitted_iff_min_one env_ok d (dark 1)) as (_ & H & _).
  - reflexivity.
  - reflexivity.
  - exact (H eq_refl).
Defined.


(* ================================================================== *)
(** * Further facts *)

(* ------------------------------------------------------------------ *)
(** ** Exact binary32 products *)

Module Float32Exact.
Import Float32.

Lemma round24_exact (emin m j : Z) :
  0 <= emin <= j -> 0 <= m < 2 ^ 24 ->
  round24 emin (m * 2 ^ j) = m * 2 ^ j.
Proof.
  intros He Hm.
  destruct (Z.eq_dec m 0) as [->|Hm0].
  { rewrite Z.mul_0_l. unfold round24. rewrite Float32Facts.rne_0 by lia. lia. }
  unfold round24.
  rewrite Z.log2_mul_pow2 by lia.
  assert (Hl : Z.log2 m < 24) by (apply Z.log2_lt_pow2; lia).
  set (s := Z.max emin (j + Z.log2 m - 23)).
  assert (Hs : 0 <= s <= j) by lia.
  pose proof (Float32Facts.pow2_pos s ltac:(lia)) as Hu.
  assert (E : m * 2 ^ j = (m * 2 ^ (j - s)) * 2 ^ s).
  { rewrite <- Z.mul_assoc, <- Z.pow_add_r by lia. do 2 f_equal. lia. }
  rewrite E. unfold rne.
  rewrite Z.mod_mul, Z.div_mul by lia.
  destruct (2 * 0 <? 2 ^ s) eqn:A; [reflexivity | lia].
Qed.

Lemma fl_exact (emin m j : Z) :
  0 <= emin <= j -> 0 <= m < 2 ^ 24 -> fl emin (m * 2 ^ j) = m * 2 ^ j.
Proof.
  intros He Hm. unfold fl.
  pose proof (Float32Facts.pow2_pos j ltac:(lia)) as Hu.
  assert (0 <= m * 2 ^ j) by (apply Z.mul_nonneg_nonneg; lia).
  rewrite Z.abs_eq by assumption.
  rewrite round24_exact by assumption.
  destruct (Z.eq_dec (m * 2 ^ j) 0) as [->|Hn]; [reflexivity|].
  rewrite Z.sgn_pos by lia. lia.
Qed.

Lemma of_int_exact (n : Z) : 0 <= n < 2 ^ 24 -> of_int n = n * 2 ^ unit_exp.
Proof. intros. unfold of_int. apply fl_exact; unfold unit_exp; lia. Qed.

Lemma mul_one_exact (n : Z) :
  0 <= n < 2 ^ 24 -> mul (n * 2 ^ unit_exp) one = n * 2 ^ unit_exp.
Proof.
  intros Hn. unfold mul, one.
  rewrite <- Z.mul_assoc, <- Z.pow_add_r by (unfold unit_exp; lia).
  rewrite fl_exact by (unfold unit_exp; lia).
  rewrite Z.pow_add_r, Z.mul_assoc by (unfold unit_exp; lia).
  apply Z.div_mul. unfold unit_exp. lia.
Qed.

Lemma mul_zero_r (a : float) : mul a 0 = 0.
Proof. unfold mul. rewrite Z.mul_0_r. reflexivity. Qed.

Lemma to_int_of_units (n : Z) : to_int (n * 2 ^ unit_exp) = n.
Proof. unfold to_int. apply Z.quot_mul. unfold unit_exp. lia. Qed.

End Float32Exact.

(* ------------------------------------------------------------------ *)
(** ** The budget between 0 and the number of blocks *)

(** X7.  For a fraction between 0 and 1 the truncated budget lies between 0
    and the number of 16x16 blocks; it is that number for [frac = 1] and 0
    for [frac = 0]. *)
Theorem threshold_bounds (d : DecimateContext) (w h : Z) :
  0 <= w -> 0 <= h -> Z.quot w 16 * Z.quot h 16 < 2 ^ 24 ->
  0 <= frac d <= Float32.one ->
  0 <= threshold d w h <= Z.quot w 16 * Z.quot h 16 /\
  (frac d = Float32.one -> threshold d w h = Z.quot w 16 * Z.quot h 16) /\
  (frac d = 0 -> threshold d w h = 0).
Proof.
  intros Hw Hh Hn Hf.
  pose proof (blocks_nonneg w h Hw Hh) as Hb.
  assert (Hone : Float32.to_int
                   (Float32.mul (Float32.of_int (Z.quot w 16 * Z.quot h 16)) Float32.one)
                 = Z.quot w 16 * Z.quot h 16).
  { rewrite Float32Exact.of_int_exact by lia.
    rewrite Float32Exact.mul_one_exact by lia.
    apply Float32Exact.to_int_of_units. }
  split; [split|split].
  - apply threshold_nonneg; lia.
  - rewrite <- Hone at 1. unfold threshold, block_budget.
    apply Float32Facts.to_int_mono, Float32Facts.mul_mono_r; [|lia].
    apply Float32Facts.of_int_nonneg. exact Hb.
  - intros E. unfold threshold, block_budget. rewrite E. exact Hone.
  - intros E. unfold threshold, block_budget. rewrite E.
    rewrite Float32Exact.mul_zero_r. reflexivity.
Qed.

Lemma threshold_bounds_witness :
  0 <= threshold scenario_context 1920 1080 <= Z.quot 1920 16 * Z.quot 1080 16.
Proof.
  apply (threshold_bounds scenario_context 1920 1080).
  - lia.
  - lia.
  - vm_compute. reflexivity.
  - vm_compute. split; discriminate.
Defined.

(* ------------------------------------------------------------------ *)
(** ** Planes without windows, windows above [hi] *)

(** X4.  A plane narrower than 16 columns or lower than 8 rows has no
    sampled window: it is judged identical whatever the pixels and the
    thresholds are. *)
Theorem plane_without_window_identical (d : DecimateContext)
    (cur : pointer) (cls : Z) (ref_ : pointer) (rls : Z) (w h : Z) :
  w < 16 \/ h < 8 ->
  windows w h = [] /\ diff_planes d cur cls ref_ rls w h = 0.
Proof.
  intros H. split.
  - destruct (windows w h) as [|[x y] l] eqn:E; [reflexivity|].
    assert (Hin : In (x, y) (windows w h)) by (rewrite E; now left).
    apply windows_In in Hin. lia.
  - apply diff_planes_quiet. intros x y Hin. apply windows_In in Hin. lia.
Qed.

Lemma plane_without_window_identical_witness :
  windows 15 100 = [] /\
  diff_planes (new_context 10 (-1) (-1) 0 sad_8x8)
    (Ptr (repeat 255 1500%nat) 0) 15 (Ptr (repeat 0 1500%nat) 0) 15 15 100 = 0.
Proof.
  apply plane_without_window_identical. left. lia.
Defined.

Section HighWindow.

Variable decimate : DecimateContext.
Variables (cur : pointer) (cur_linesize : Z).
Variables (ref_ : pointer) (ref_linesize : Z).

Lemma scan_row_high (t : Z) (xs : list Z) (y : Z) :
  forall c,
    match scan_row decimate cur cur_linesize ref_ ref_linesize t xs y c with
    | Return r => r = 1
    | Continue _ =>
        forall x, In x xs ->
          window_sad decimate cur cur_linesize ref_ ref_linesize x y <= hi decimate
    end.
Proof.
  induction xs as [|x xs IH]; intros c; cbn [scan_row].
  - intros x [].
  - destruct (window_sad decimate cur cur_linesize ref_ ref_linesize x y >? hi decimate)
      eqn:Ehi; [reflexivity|].
    assert (Hstep : forall c',
      match scan_row decimate cur cur_linesize ref_ ref_linesize t xs y c' with
      | Return r => r = 1
      | Continue _ =>
          forall x0, In x0 (x :: xs) ->
            window_sad decimate cur cur_linesize ref_ ref_linesize x0 y <= hi decimate
      end).
    { intros c'. specialize (IH c').
      destruct (scan_row decimate cur cur_linesize ref_ ref_linesize t xs y c');
        [exact IH|].
      intros x0 [<-|Hin]; [lia | now apply IH]. }
    destruct (window_sad decimate cur cur_linesize ref_ ref_linesize x y >? lo decimate).
    + destruct (c + 1 >? t); [reflexivity | apply Hstep].
    + apply Hstep.
Qed.

Lemma scan_rows_high (t : Z) (xs ys : list Z) :
  forall c,
    match scan_rows decimate cur cur_linesize ref_ ref_linesize t xs ys c with
    | Return r => r = 1
    | Continue _ =>
        forall x y, In x xs -> In y ys ->
          window_sad decimate cur cur_linesize ref_ ref_linesize x y <= hi decimate
    end.
Proof.
  induction ys as [|y ys IH]; intros c; cbn [scan_rows].
  - intros x y _ [].
  - pose proof (scan_row_high t xs y c) as Hrow.
    destruct (scan_row decimate cur cur_linesize ref_ ref_linesize t xs y c) as [r|c'];
      [exact Hrow|].
    specialize (IH c').
    destruct (scan_rows decimate cur cur_linesize ref_ ref_linesize t xs ys c');
      [exact IH|].
    intros x y0 Hx [<-|Hy]; [now apply Hrow | now apply IH].
Qed.

End HighWindow.


(* ------------------------------------------------------------------ *)
(** ** Which pixels the scan reads *)

Lemma fold_left_agree {A B : Type} (F G : A -> B -> A) (l : list B) (a : A) :
  (forall s y, In y l -> F s y = G s y) -> fold_left F l a = fold_left G l a.
Proof.
  revert a. induction l as [|y l IH]; intros a H; [reflexivity|].
  cbn [fold_left]. rewrite H by now left.
  apply IH. intros s y' Hy'. apply H. now right.
Qed.

Lemma sad_8x8_agree (p1 : pointer) (s1 : Z) (p2 : pointer) (s2 : Z)
    (q1 : pointer) (t1 : Z) (q2 : pointer) (t2 : Z) :
  (forall i j, 0 <= i < 8 -> 0 <= j < 8 ->
     load p1 (j * s1 + i) = load q1 (j * t1 + i) /\
     load p2 (j * s2 + i) = load q2 (j * t2 + i)) ->
  sad_8x8 p1 s1 p2 s2 = sad_8x8 q1 t1 q2 t2.
Proof.
  intros H. unfold sad_8x8.
  apply fold_left_agree. intros s y Hy.
  apply fold_left_agree. intros s' x Hx.
  destruct (H x y) as [E1 E2]; [cbn [In] in Hx; lia | cbn [In] in Hy; lia |].
  now rewrite E1, E2.
Qed.

Section TwoStorages.

Variable decimate : DecimateContext.
Variables (cur : pointer) (cls : Z) (ref_ : pointer) (rls : Z).
Variables (cur' : pointer) (cls' : Z) (ref' : pointer) (rls' : Z).

Lemma scan_row_agree (t : Z) (xs : list Z) (y : Z) :
  (forall x, In x xs ->
     window_sad decimate cur cls ref_ rls x y =
     window_sad decimate cur' cls' ref' rls' x y) ->
  forall c,
    scan_row decimate cur cls ref_ rls t xs y c =
    scan_row decimate cur' cls' ref' rls' t xs y c.
Proof.
  induction xs as [|x xs IH]; intros H c; [reflexivity|].
  cbn [scan_row]. rewrite (H x) by now left.
  rewrite !IH by (intros x' Hx'; apply H; now right).
  reflexivity.
Qed.

Lemma scan_rows_agree (t : Z) (xs ys : list Z) :
  (forall x y, In x xs -> In y ys ->
     window_sad decimate cur cls ref_ rls x y =
     window_sad decimate cur' cls' ref' rls' x y) ->
  forall c,
    scan_rows decimate cur cls ref_ rls t xs ys c =
    scan_rows decimate cur' cls' ref' rls' t xs ys c.
Proof.
  induction ys as [|y ys IH]; intros H c; [reflexivity|].
  cbn [scan_rows].
  rewrite (scan_row_agree t xs y) by (intros x Hx; apply H; [exact Hx | now left]).
  destruct (scan_row decimate cur' cls' ref' rls' t xs y c); [reflexivity|].
  apply IH. intros x y' Hx Hy'. apply H; [exact Hx | now right].
Qed.

End TwoStorages.

(** X6.  With the 8x8 SAD, [diff_planes] reads only pixels of the [w] by
    [h] plane, and none of its 8 leftmost columns: two pairs of planes that
    agree on the columns 8 to [w-1] of the rows 0 to [h-1] get the same
    result, whatever their strides and whatever lies elsewhere. *)
Theorem diff_planes_reads_inside (d : DecimateContext)
    (cur : pointer) (cls : Z) (ref_ : pointer) (rls : Z)
    (cur' : pointer) (cls' : Z) (ref' : pointer) (rls' : Z) (w h : Z) :
  sad d = sad_8x8 ->
  (forall col row, 8 <= col < w -> 0 <= row < h ->
     load cur (row * cls + col) = load cur' (row * cls' + col)) ->
  (forall col row, 8 <= col < w -> 0 <= row < h ->
     load ref_ (row * rls + col) = load ref' (row * rls' + col)) ->
  diff_planes d cur cls ref_ rls w h = diff_planes d cur' cls' ref' rls' w h.
Proof.
  intros Hsad Hcur Href. unfold diff_planes.
  rewrite (scan_rows_agree d cur cls ref_ rls cur' cls' ref' rls'); [reflexivity|].
  intros x y Hx Hy.
  apply loop_range_In in Hx, Hy.
  unfold window_sad. rewrite Hsad.
  apply sad_8x8_agree. intros i j Hi Hj.
  rewrite !load_ptr_add.
  replace (y * cls + x + (j * cls + i)) with ((y + j) * cls + (x + i)) by ring.
  replace (y * cls' + x + (j * cls' + i)) with ((y + j) * cls' + (x + i)) by ring.
  replace (y * rls + x + (j * rls + i)) with ((y + j) * rls + (x + i)) by ring.
  replace (y * rls' + x + (j * rls' + i)) with ((y + j) * rls' + (x + i)) by ring.
  split; [apply Hcur | apply Href]; lia.
Qed.

Lemma diff_planes_reads_inside_witness :
  diff_planes scenario_context banded_plane 16 black_plane 16 16 16 =
  diff_planes scenario_context black_plane 16 black_plane 16 16 16.
Proof.
  apply (diff_planes_reads_inside scenario_context
           banded_plane 16 black_plane 16 black_plane 16 black_plane 16 16 16).
  - reflexivity.
  - intros col row Hc Hr.
    assert (Ec : col = 8 \/ col = 9 \/ col = 10 \/ col = 11 \/
                 col = 12 \/ col = 13 \/ col = 14 \/ col = 15) by lia.
    assert (Er : row = 0 \/ row = 1 \/ row = 2 \/ row = 3 \/
                 row = 4 \/ row = 5 \/ row = 6 \/ row = 7 \/
                 row = 8 \/ row = 9 \/ row = 10 \/ row = 11 \/
                 row = 12 \/ row = 13 \/ row = 14 \/ row = 15) by lia.
    clear Hc Hr.
    repeat (destruct Ec as [Ec|Ec]); subst col;
      repeat (destruct Er as [Er|Er]); subst row; vm_compute; reflexivity.
  - intros col row _ _. reflexivity.
Defined.

(* ------------------------------------------------------------------ *)
(** ** Frames: the planes that are compared *)

Lemma ceil_rshift_le (a b : Z) : 0 <= a -> 0 <= b -> AV_CEIL_RSHIFT a b <= a.
Proof.
  intros Ha Hb. unfold AV_CEIL_RSHIFT.
  rewrite Z.shiftr_div_pow2 by exact Hb.
  pose proof (Float32Facts.pow2_pos b Hb) as Hu.
  assert (- a <= - a / 2 ^ b) by (apply Z.div_le_lower_bound; nia).
  lia.
Qed.

Section FramePlanes.

Variable d : DecimateContext.
Variables cur ref_ : AVFrame.

Lemma planes_differ_cases (a : list pointer) :
  forall (b : list Z) (p : nat),
    (forall i, nth (p + i) (data ref_) Null = nth i a Null) ->
    (forall i, nth (p + i) (linesize ref_) 0 = nth i b 0) ->
    (planes_differ d cur ref_ p (combine a b) = 1 /\ some_plane_differs d cur ref_ p) \/
    (planes_differ d cur ref_ p (combine a b) = 0 /\ ~ some_plane_differs d cur ref_ p).
Proof.
  induction a as [|x a IH]; intros b p Ha Hb.
  - right. split; [reflexivity|].
    intros (i & Hi & Hp & _). destruct (Hp p) as [Hd _]; [lia|].
    apply Hd. specialize (Ha 0%nat). rewrite Nat.add_0_r in Ha. exact Ha.
  - destruct b as [|ls b].
    + right. split; [reflexivity|].
      intros (i & Hi & Hp & _). destruct (Hp p) as [_ Hl]; [lia|].
      apply Hl. specialize (Hb 0%nat). rewrite Nat.add_0_r in Hb. exact Hb.
    + pose proof (Ha 0%nat) as Ha0. pose proof (Hb 0%nat) as Hb0.
      rewrite Nat.add_0_r in Ha0, Hb0. cbn [nth] in Ha0, Hb0.
      cbn [combine planes_differ].
      destruct x as [|bs o].
      { right. split; [reflexivity|].
        intros (i & Hi & Hp & _). destruct (Hp p) as [Hd _]; [lia|]. now apply Hd. }
      destruct (Z.eqb_spec ls 0) as [Els|Els].
      { right. split; [reflexivity|].
        intros (i & Hi & Hp & _). destruct (Hp p) as [_ Hl]; [lia|].
        apply Hl. congruence. }
      assert (E : diff_planes d (nth p (data cur) Null) (nth p (linesize cur) 0)
                    (Ptr bs o) ls
                    (AV_CEIL_RSHIFT (width ref_)
                       (if (Nat.eqb p 1 || Nat.eqb p 2)%bool then hsub d else 0))
                    (AV_CEIL_RSHIFT (height ref_)
                       (if (Nat.eqb p 1 || Nat.eqb p 2)%bool then vsub d else 0))
                  = plane_result d cur ref_ p).
      { unfold plane_result, plane_width, plane_height, is_chroma_plane.
        rewrite Ha0, Hb0. reflexivity. }
      cbv zeta. rewrite E.
      assert (Hpres : plane_present ref_ p).
      { unfold plane_present. rewrite Ha0, Hb0. split; [discriminate | exact Els]. }
      destruct (Z.eqb_spec (plane_result d cur ref_ p) 0) as [Er|Er].
      * destruct (IH b (S p)) as [[E1 Hex]|[E0 Hno]].
        -- intros i. pose proof (Ha (S i)) as Hi. cbn [nth] in Hi.
           rewrite <- Hi. f_equal. lia.
        -- intros i. pose proof (Hb (S i)) as Hi. cbn [nth] in Hi.
           rewrite <- Hi. f_equal. lia.
        -- left. split; [exact E1|].
           destruct Hex as (i & Hi & Hp & Hr). exists i.
           split; [lia|]. split; [|exact Hr].
           intros j Hj. destruct (Nat.eq_dec j p) as [->|Hne]; [exact Hpres|].
           apply Hp. lia.
        -- right. split; [exact E0|].
           intros (i & Hi & Hp & Hr). destruct (Nat.eq_dec i p) as [->|Hne].
           ++ contradiction.
           ++ apply Hno. exists i. split; [lia|]. split; [|exact Hr].
              intros j Hj. apply Hp. lia.
      * left. split; [reflexivity|]. exists p.
        split; [lia|]. split; [|exact Er].
        intros j Hj. replace j with p by lia. exact Hpres.
Qed.

Lemma is_frame_different_cases :
  (is_frame_different d cur ref_ = 1 /\ some_plane_differs d cur ref_ 0) \/
  (is_frame_different d cur ref_ = 0 /\ ~ some_plane_differs d cur ref_ 0).
Proof.
  unfold is_frame_different. apply planes_differ_cases; intros i; reflexivity.
Qed.

End FramePlanes.

(** X1.  [is_frame_different] is the OR over the planes of the reference up
    to its first absent plane (NULL data or zero linesize): it returns 1 when
    one of these planes is judged different by [diff_planes], scanned at the
    frame size shifted by the chroma subsampling for planes 1 and 2 only, and
    0 otherwise; planes after an absent one are not looked at. *)
Theorem is_frame_different_or_of_planes (d : DecimateContext) (cur ref_ : AVFrame) :
  (is_frame_different d cur ref_ = 1 <-> some_plane_differs d cur ref_ 0) /\
  (is_frame_different d cur ref_ = 0 <-> ~ some_plane_differs d cur ref_ 0).
Proof.
  destruct (is_frame_different_cases d cur ref_) as [[E H]|[E H]]; rewrite E.
  - split; split; intros; try reflexivity; try assumption; try discriminate.
    contradiction.
  - split; split; intros; try reflexivity; try assumption; try discriminate.
    contradiction.
Qed.

Lemma shared_planes_identical (d : DecimateContext) (cur ref_ : AVFrame) :
  sad d = sad_8x8 -> 0 <= hi d -> 0 <= lo d ->
  data cur = data ref_ -> linesize cur = linesize ref_ ->
  is_frame_different d cur ref_ = 0.
Proof.
  intros Hsad Hhi Hlo Hdata Hls.
  destruct (is_frame_different_cases d cur ref_) as [[_ H]|[E _]]; [|exact E].
  exfalso. destruct H as (i & _ & _ & Hr). apply Hr.
  unfold plane_result. rewrite Hdata, Hls.
  apply diff_planes_quiet. intros x y Hin.
  rewrite (window_sad_same_pixels d _ _ _ _ _ _ x y Hsad
             (fun col row _ _ => eq_refl) Hin).
  split; assumption.
Qed.

(** X3.  A frame is never different from a frame that shares its planes (its
    clone), when [hi] and [lo] are not negative. *)
Theorem clone_is_identical (d : DecimateContext) (cur ref_ : AVFrame) :
  sad d = sad_8x8 -> 0 <= hi d -> 0 <= lo d ->
  data cur = data ref_ -> linesize cur = linesize ref_ ->
  is_frame_different d cur ref_ = 0.
Proof. exact (shared_planes_identical d cur ref_). Qed.

Lemma clone_is_identical_witness :
  is_frame_different scenario_context (bright 2) (bright 1) = 0.
Proof.
  apply clone_is_identical.
  - reflexivity.
  - vm_compute. discriminate.
  - vm_compute. discriminate.
  - reflexivity.
  - reflexivity.
Defined.

(** X8.  Frames narrower than 16 pixels or lower than 8 are all classified
    identical (subsampling factors not negative): no plane of theirs has a
    sampled window. *)
Theorem small_frames_identical (d : DecimateContext) (cur ref_ : AVFrame) :
  0 <= hsub d -> 0 <= vsub d ->
  0 <= width ref_ -> 0 <= height ref_ ->
  width ref_ < 16 \/ height ref_ < 8 ->
  is_frame_different d cur ref_ = 0.
Proof.
  intros Hh Hv Hw Hht Hsmall.
  destruct (is_frame_different_cases d cur ref_) as [[_ H]|[E _]]; [|exact E].
  exfalso. destruct H as (i & _ & _ & Hr). apply Hr.
  unfold plane_result. apply diff_planes_no_window.
  assert (plane_width d ref_ i <= width ref_).
  { unfold plane_width. apply ceil_rshift_le; [exact Hw|].
    destruct (is_chroma_plane i); lia. }
  assert (plane_height d ref_ i <= height ref_).
  { unfold plane_height. apply ceil_rshift_le; [exact Hht|].
    destruct (is_chroma_plane i); lia. }
  lia.
Qed.

Lemma small_frames_identical_witness :
  is_frame_different scenario_context (flat_frame 255 64 7 2) (flat_frame 0 64 7 1) = 0.
Proof.
  apply small_frames_identical.
  - vm_compute. discriminate.
  - vm_compute. discriminate.
  - vm_compute. discriminate.
  - vm_compute. discriminate.
  - right. vm_compute. reflexivity.
Defined.

Lemma filter_frame_min_dup_count (e : Env) (d : DecimateContext) (cur : AVFrame) :
  min_dup_count (ctx_of (filter_frame e d cur)) = min_dup_count d.
Proof.
  unfold filter_frame, ctx_of.
  destruct (differs d (ref d) cur); cbn [set_dup_count dup_count min_dup_count];
    match goal with |- context [?x && ?y] => destruct (x && y) end; reflexivity.
Qed.

(** X2.  [filter_frame] leaves the classification as it was: after the call,
    whatever its outcome, any two frames are classified as before (the
    thresholds, the SAD function and the subsampling are not written), and
    [min_dup_count] is the same. *)
Theorem filter_frame_keeps_classification (e : Env) (d : DecimateContext)
    (cur a b : AVFrame) :
  is_frame_different (ctx_of (filter_frame e d cur)) a b = is_frame_different d a b /\
  min_dup_count (ctx_of (filter_frame e d cur)) = min_dup_count d.
Proof.
  split; [|apply filter_frame_min_dup_count].
  unfold filter_frame, ctx_of, is_frame_different.
  destruct (differs d (ref d) cur); cbn [set_dup_count dup_count min_dup_count];
    match goal with |- context [?x && ?y] => destruct (x && y) end;
    cbn [fst snd]; apply planes_differ_ext; reflexivity.
Qed.

(* ------------------------------------------------------------------ *)
(** ** The decimator: spacing of emissions *)

Lemma int_wrap_succ_neq (m : Z) : INT_MIN <= m <= INT_MAX -> int_wrap (m + 1) <> m.
Proof.
  intros H. destruct (Z.eq_dec m INT_MAX) as [->|Hne].
  - vm_compute. discriminate.
  - rewrite int_wrap_small by (unfold INT_MIN, INT_MAX in *; lia). lia.
Qed.

(** X9.  For [1 <= min_dup_count] the frame that follows an emitted frame is
    never emitted: after an emission the counter equals [min_dup_count], and
    the next call sets it to 0 or to one more. *)
Theorem no_two_emissions_in_a_row (e1 e2 : Env) (d : DecimateContext) (f1 f2 : AVFrame) :
  1 <= min_dup_count d <= INT_MAX ->
  emitted (events_of (filter_frame e1 d f1)) <> [] ->
  emitted (events_of (filter_frame e2 (ctx_of (filter_frame e1 d f1)) f2)) = [].
Proof.
  intros Hm H1.
  rewrite filter_frame_emitted in H1.
  rewrite filter_frame_emitted, filter_frame_min_dup_count, filter_frame_count.
  destruct (Z.eqb_spec (next_count d (dup_count d) (ref d) f1) (min_dup_count d))
    as [E|E]; [|contradiction].
  rewrite E. unfold next_count at 1.
  destruct (differs _ _ f2).
  - destruct (Z.eqb_spec 0 (min_dup_count d)); [lia | reflexivity].
  - destruct (Z.eqb_spec (int_wrap (min_dup_count d + 1)) (min_dup_count d)) as [E'|E'];
      [|reflexivity].
    exfalso. revert E'. apply int_wrap_succ_neq. unfold INT_MIN. lia.
Qed.

Lemma no_two_emissions_in_a_row_witness :
  let d := new_context 1 default_hi default_lo default_frac sad_8x8 in
  emitted (events_of (filter_frame env_ok (ctx_of (filter_frame env_ok d (dark 1)))
                                   (dark 2))) = [].
Proof.
  intros d. apply no_two_emissions_in_a_row.
  - vm_compute. split; discriminate.
  - vm_compute. discriminate.
Defined.

(** X10.  After a frame classified different (whatever the counter was),
    followed by frames each classified identical to the frame before it, the
    one emission is the frame [min_dup_count] places after the frame that
    broke the run, if the stream gets that far ([1 <= min_dup_count], no
    failure). *)
Theorem emission_after_break (d : DecimateContext) (e0 : Env) (f0 : AVFrame)
    (rest : list (Env * AVFrame)) :
  1 <= min_dup_count d ->
  nominal e0 -> Forall (fun ef => nominal (fst ef)) rest ->
  differs d (ref d) f0 = true ->
  all_same d (Some f0) (map snd rest) ->
  Z.of_nat (length rest) <= INT_MAX ->
  emitted (events_of (run d ((e0, f0) :: rest))) =
    match nth_error (map snd rest) (Z.to_nat (min_dup_count d - 1)) with
    | Some f => [Some f]
    | None => []
    end.
Proof.
  intros Hm He0 Hrest Hdiff Hsame Hlen.
  destruct (run_nominal ((e0, f0) :: rest) d) as [_ ->].
  { constructor; assumption. }
  cbn [map snd emissions]. unfold next_count. rewrite Hdiff.
  destruct (Z.eqb_spec 0 (min_dup_count d)); [lia|]. cbn [app].
  rewrite (emissions_all_same d (map snd rest) 0 (Some f0) Hsame)
    by (rewrite ?length_map; lia).
  replace (0 <? min_dup_count d) with true by (symmetry; lia).
  replace (min_dup_count d - 0 - 1) with (min_dup_count d - 1) by lia.
  reflexivity.
Qed.

Lemma emission_after_break_witness :
  let d := set_ref (Some (dark 1))
             (new_context 2 default_hi default_lo default_frac sad_8x8) in
  emitted (events_of (run d (feed [bright 2; bright 3; bright 4; bright 5]))) =
    [Some (bright 4)].
Proof.
  intros d.
  pose proof (emission_after_break d env_ok (bright 2)
                (feed [bright 3; bright 4; bright 5])) as H.
  apply H.
  - vm_compute. discriminate.
  - exact nominal_env_ok.
  - apply feed_nominal.
  - vm_compute. reflexivity.
  - vm_compute. repeat split.
  - vm_compute. discriminate.
Defined.

Lemma all_same_repeat (d : DecimateContext) (f : AVFrame) (n : nat) :
  sad d = sad_8x8 -> 0 <= hi d -> 0 <= lo d ->
  forall r, r = None \/ r = Some f -> all_same d r (repeat f n).
Proof.
  intros Hsad Hhi Hlo. induction n as [|n IH]; intros r Hr; [exact I|].
  cbn [repeat all_same]. split; [|apply IH; now right].
  destruct Hr as [->| ->]; [reflexivity|].
  unfold differs. rewrite shared_planes_identical by auto. reflexivity.
Qed.

(** X11.  The same frame sent [n] times to a fresh decimator is emitted
    exactly once, when [1 <= min_dup_count <= n] and [hi], [lo] are not
    negative. *)
Theorem same_frame_repeated (d : DecimateContext) (f : AVFrame) (n : nat) :
  sad d = sad_8x8 -> 0 <= hi d -> 0 <= lo d ->
  ref d = None -> dup_count d = 0 ->
  1 <= min_dup_count d <= Z.of_nat n -> Z.of_nat n <= INT_MAX ->
  emitted (events_of (run d (feed (repeat f n)))) = [Some f].
Proof.
  intros Hsad Hhi Hlo Hr Hk Hm Hn.
  destruct (run_nominal (feed (repeat f n)) d (feed_nominal _)) as [_ ->].
  rewrite feed_frames, Hr, Hk.
  rewrite (emissions_all_same d (repeat f n) 0 None)
    by (try apply all_same_repeat; auto; rewrite ?repeat_length; lia).
  replace (0 <? min_dup_count d) with true by (symmetry; lia).
  destruct (nth_error (repeat f n) (Z.to_nat (min_dup_count d - 0 - 1))) as [g|] eqn:E.
  - apply nth_error_In, repeat_spec in E. now subst g.
  - apply nth_error_None in E. rewrite repeat_length in E. lia.
Qed.

Lemma same_frame_repeated_witness :
  emitted (events_of (run scenario_context (feed (repeat (bright 1) 5)))) =
    [Some (bright 1)].
Proof.
  apply same_frame_repeated.
  - reflexivity.
  - vm_compute. discriminate.
  - vm_compute. discriminate.
  - reflexivity.
  - reflexivity.
  - vm_compute. split; discriminate.
  - vm_compute. discriminate.
Defined.

(* ------------------------------------------------------------------ *)
(** ** The decimator: what a stream holds and releases *)

Lemma last_cons {A : Type} (l : list A) :
  forall x d, last (x :: l) d = last l x.
Proof.
  induction l as [|y l IH]; intros x d; [reflexivity|].
  change (last (x :: y :: l) d) with (last (y :: l) d).
  now rewrite !IH.
Qed.

Lemma run_state (input : list (Env * AVFrame)) :
  forall d, Forall (fun ef => nominal (fst ef)) input ->
    ref (ctx_of (run d input)) = last (map Some (map snd input)) (ref d) /\
    min_dup_count (ctx_of (run d input)) = min_dup_count d /\
    (0 <= dup_count d -> dup_count d + Z.of_nat (length input) <= INT_MAX ->
     0 <= dup_count (ctx_of (run d input)) <= dup_count d + Z.of_nat (length input)).
Proof.
  induction input as [|[e cur] input IH]; intros d Hn.
  - cbn [run ctx_of fst snd map last length].
    repeat split; lia.
  - inversion Hn as [|? ? He Hrest]; subst. cbn [fst] in He.
    cbn [run map snd length].
    rewrite (filter_frame_nominal e d cur He).
    set (k' := next_count d (dup_count d) (ref d) cur).
    cbn zeta. cbn [Z.ltb Z.compare].
    specialize (IH (set_ref (Some cur) (set_dup_count k' d)) Hrest).
    destruct (run (set_ref (Some cur) (set_dup_count k' d)) input) as [[ret' d''] evs'].
    unfold ctx_of in *. cbn [fst snd] in *.
    cbn [ref dup_count min_dup_count set_ref set_dup_count] in IH.
    destruct IH as (IHr & IHm & IHk).
    split; [|split; [exact IHm|]].
    + rewrite IHr. cbn [map]. now rewrite last_cons.
    + intros Hk Hlen.
      assert (0 <= k' <= dup_count d + 1).
      { unfold k', next_count. destruct (differs d (ref d) cur); [lia|].
        rewrite int_wrap_small by (unfold INT_MIN; lia). lia. }
      specialize (IHk ltac:(lia) ltac:(lia)). lia.
Qed.

(** X13.  After a stream without failure the reference is the last frame
    received (the one held at the start if there was no frame),
    [min_dup_count] is unchanged, and a counter that started between 0 and
    [INT_MAX - N] ends between 0 and its start plus N. *)
Theorem stream_state (d : DecimateContext) (input : list (Env * AVFrame)) :
  Forall (fun ef => nominal (fst ef)) input ->
  ref (ctx_of (run d input)) = last (map Some (map snd input)) (ref d) /\
  min_dup_count (ctx_of (run d input)) = min_dup_count d /\
  (0 <= dup_count d -> dup_count d + Z.of_nat (length input) <= INT_MAX ->
   0 <= dup_count (ctx_of (run d input)) <= dup_count d + Z.of_nat (length input)).
Proof.
  intros Hn. destruct (run_state input d Hn) as (H1 & H2 & H3).
  repeat split; try assumption; apply H3; assumption.
Qed.

Lemma stream_state_witness :
  ref (ctx_of (run scenario_context (feed scenario_frames))) = Some (bright 8).
Proof.
  destruct (stream_state scenario_context (feed scenario_frames) (feed_nominal _))
    as (H & _).
  rewrite H. reflexivity.
Defined.

(* ------------------------------------------------------------------ *)
(** ** The decision of [diff_planes] against the rule of the specification *)

Lemma sad_8x8_block_sad (cur : pointer) (cls : Z) (ref_ : pointer) (rls : Z) (x y : Z) :
  sad_8x8 (ptr_add cur (y * cls + x)) cls (ptr_add ref_ (y * rls + x)) rls =
  block_sad cur cls ref_ rls x y.
Proof.
  unfold sad_8x8, block_sad.
  apply fold_left_agree. intros s j _.
  apply fold_left_agree. intros s' i _.
  rewrite !load_ptr_add.
  replace (y * cls + x + (j * cls + i)) with ((y + j) * cls + (x + i)) by ring.
  replace (y * rls + x + (j * rls + i)) with ((y + j) * rls + (x + i)) by ring.
  reflexivity.
Qed.

Lemma count_lo_filter (d : DecimateContext)
    (cur : pointer) (cls : Z) (ref_ : pointer) (rls : Z) (ps : list (Z * Z)) :
  count_lo d cur cls ref_ rls ps =
  Z.of_nat (length (filter
    (fun p => lo d <? sad d (ptr_add cur (snd p * cls + fst p)) cls
                            (ptr_add ref_ (snd p * rls + fst p)) rls) ps)).
Proof.
  unfold count_lo. do 2 f_equal. apply filter_ext. intros p.
  unfold window_sad. apply Z.gtb_ltb.
Qed.

Lemma rounded_budget_code (d : DecimateContext) (w h : Z) :
  0 <= w -> 0 <= h ->
  block_budget d w h =
  Float32.mul (Float32.of_int ((w / 16) * (h / 16))) (frac d).
Proof.
  intros Hw Hh. unfold block_budget.
  now rewrite !Z.quot_div_nonneg by lia.
Qed.

(** C4 (amended).  For a plane of [w] by [h] pixels and a fraction that is
    not negative, [diff_planes] returns 1 exactly when, over the sampled
    windows (x in 8, 12, 16, ... below [w-7], y in 0, 4, 8, ... below [h-7],
    each visited once), some SAD exceeds [hi] or the number of SADs above
    [lo] exceeds the budget [T = floor(w/16) * floor(h/16) * frac] as binary32
    arithmetic gives it, the block count converted to float and the product
    each rounded to the nearest float; in every other case it returns 0.  The
    SAD of the window at (x, y) is what the SAD function returns for the
    blocks at offset [y * linesize + x] of the two planes, and with the 8x8
    SAD it is the sum of the absolute differences of the 64 pixels at columns
    x..x+7 of rows y..y+7. *)
Theorem diff_planes_decision (d : DecimateContext)
    (cur : pointer) (cls : Z) (ref_ : pointer) (rls : Z) (w h : Z) :
  0 <= frac d -> 0 <= w -> 0 <= h ->
  (diff_planes d cur cls ref_ rls w h = 1 <->
     spec_decision (hi d) (lo d) (exceeds_rounded_budget w h (frac d))
       (fun x y => sad d (ptr_add cur (y * cls + x)) cls
                         (ptr_add ref_ (y * rls + x)) rls) w h) /\
  (~ spec_decision (hi d) (lo d) (exceeds_rounded_budget w h (frac d))
       (fun x y => sad d (ptr_add cur (y * cls + x)) cls
                         (ptr_add ref_ (y * rls + x)) rls) w h ->
   diff_planes d cur cls ref_ rls w h = 0) /\
  (sad d = sad_8x8 ->
   forall x y, sad d (ptr_add cur (y * cls + x)) cls (ptr_add ref_ (y * rls + x)) rls =
               block_sad cur cls ref_ rls x y) /\
  (forall x y, In (x, y) (windows w h) <-> sampled w h x y) /\
  NoDup (windows w h).
Proof.
  intros Hf Hw Hh.
  pose proof (threshold_nonneg d w h Hf Hw Hh) as Ht.
  assert (Hhi : exceeds_hi d cur cls ref_ rls (windows w h) = true <->
                exists x y, sampled w h x y /\
                  hi d < sad d (ptr_add cur (y * cls + x)) cls
                               (ptr_add ref_ (y * rls + x)) rls).
  { unfold exceeds_hi. rewrite existsb_exists. split.
    - intros ([x y] & Hin & Hgt). cbn [fst snd] in Hgt. unfold window_sad in Hgt.
      exists x, y. apply windows_In in Hin. split; [exact Hin | lia].
    - intros (x & y & Hs & Hgt). exists (x, y). split.
      + apply windows_In. exact Hs.
      + cbn [fst snd]. unfold window_sad. lia. }
  assert (Hlo : (threshold d w h <? count_lo d cur cls ref_ rls (windows w h)) = true <->
                exceeds_rounded_budget w h (frac d)
                  (count_lo d cur cls ref_ rls (windows w h))).
  { rewrite Z.ltb_lt. unfold threshold, exceeds_rounded_budget.
    rewrite <- rounded_budget_code by assumption.
    apply Float32Facts.to_int_gt. now apply block_budget_nonneg. }
  assert (Hiff : diff_planes d cur cls ref_ rls w h = 1 <->
                 spec_decision (hi d) (lo d) (exceeds_rounded_budget w h (frac d))
                   (fun x y => sad d (ptr_add cur (y * cls + x)) cls
                                     (ptr_add ref_ (y * rls + x)) rls) w h).
  { rewrite diff_planes_spec by exact Ht. unfold spec_decision. cbn beta.
    rewrite <- count_lo_filter, <- Hhi, <- Hlo.
    destruct (exceeds_hi d cur cls ref_ rls (windows w h));
      destruct (threshold d w h <? count_lo d cur cls ref_ rls (windows w h));
      cbn [orb]; intuition congruence. }
  split; [exact Hiff|]. split; [|split; [|split]].
  - intros Hn. rewrite diff_planes_spec in * by exact Ht.
    destruct (exceeds_hi d cur cls ref_ rls (windows w h)
              || (threshold d w h <? count_lo d cur cls ref_ rls (windows w h)));
      [|reflexivity].
    exfalso. apply Hn, Hiff. reflexivity.
  - intros Hsad x y. rewrite Hsad. apply sad_8x8_block_sad.
  - intros x y. apply windows_In.
  - apply windows_NoDup.
Qed.

Lemma diff_planes_decision_witness :
  let d := scenario_context in
  let cur := Ptr (repeat 255 256%nat) 0 in
  let ref_ := Ptr (repeat 0 256%nat) 0 in
  (0 <= frac d /\ 0 <= 16) /\
  (diff_planes d cur 16 ref_ 16 16 16 = 1 <->
     spec_decision (hi d) (lo d) (exceeds_rounded_budget 16 16 (frac d))
       (fun x y => sad d (ptr_add cur (y * 16 + x)) 16
                         (ptr_add ref_ (y * 16 + x)) 16) 16 16).
Proof.
  intros d cur ref_.
  assert (Hf : 0 <= frac d) by (vm_compute; discriminate).
  split; [split; [exact Hf | lia]|].
  exact (proj1 (diff_planes_decision d cur 16 ref_ 16 16 16 Hf
                  ltac:(lia) ltac:(lia))).
Defined.

(** The float next to 0.7: no binary32 number is nearer to 7/10. *)
Example frac_07_nearest :
  Float32.representable frac_07 /\
  2 * Z.abs (10 * frac_07 - 7 * 2 ^ 149) <= 10 * 2 ^ 125.
Proof. split; vm_compute; [reflexivity | discriminate]. Qed.

(** C4, false as stated.  [frac = 0.7f] on a plane of 160 by 16 pixels (10
    blocks): the exact product is 7 - 2^-23, the float product is 7.  Seven
    windows have a SAD of 510, above [lo = 320] and below [hi = 768]: the
    count exceeds the exact product, and [diff_planes] returns 0. *)
Lemma exact_budget_disagrees :
  let d := new_context default_min default_hi default_lo frac_07 sad_8x8 in
  option_domain d /\
  (160 / 16) * (16 / 16) * frac d < 7 * 2 ^ 149 /\
  threshold d 160 16 = 7 /\
  Z.of_nat (length (filter
    (fun p => lo d <? block_sad spotted_160x16 160 black_160x16 160 (fst p) (snd p))
    (windows 160 16))) = 7 /\
  existsb
    (fun p => hi d <? block_sad spotted_160x16 160 black_160x16 160 (fst p) (snd p))
    (windows 160 16) = false /\
  spec_decision (hi d) (lo d) (exceeds_exact_budget 160 16 (frac d))
    (block_sad spotted_160x16 160 black_160x16 160) 160 16 /\
  diff_planes d spotted_160x16 160 black_160x16 160 160 16 = 0.
Proof.
  cbv zeta.
  split; [vm_compute; repeat split; discriminate|].
  split; [vm_compute; reflexivity|].
  split; [vm_compute; reflexivity|].
  split; [vm_compute; reflexivity|].
  split; [vm_compute; reflexivity|].
  split; [|vm_compute; reflexivity].
  right. unfold exceeds_exact_budget. vm_compute. reflexivity.
Qed.

(* ------------------------------------------------------------------ *)
(** ** Identical planes under every threshold *)

Lemma filter_all_length {A : Type} (f : A -> bool) (l : list A) :
  (forall x, In x l -> f x = true) -> length (filter f l) = length l.
Proof.
  induction l as [|x l IH]; intros H; [reflexivity|].
  cbn [filter]. rewrite (H x) by now left.
  cbn [length]. f_equal. apply IH. intros y Hy. apply H. now right.
Qed.

Lemma first_window (w h : Z) : 16 <= w -> 8 <= h -> In (8, 0) (windows w h).
Proof. intros Hw Hh. apply windows_In. repeat split; lia. Qed.

Lemma diff_planes_high (d : DecimateContext)
    (cur : pointer) (cls : Z) (ref_ : pointer) (rls : Z) (w h x y : Z) :
  In (x, y) (windows w h) ->
  hi d < window_sad d cur cls ref_ rls x y ->
  diff_planes d cur cls ref_ rls w h = 1.
Proof.
  intros Hin Hgt. unfold diff_planes.
  pose proof (scan_rows_high d cur cls ref_ rls (threshold d w h)
                (loop_range 8 (w - 7)) (loop_range 0 (h - 7)) 0) as H.
  destruct (scan_rows d cur cls ref_ rls (threshold d w h)
              (loop_range 8 (w - 7)) (loop_range 0 (h - 7)) 0) as [r|c];
    [exact H|].
  exfalso. unfold windows in Hin. apply in_flat_map in Hin as (y' & Hy & Hx).
  apply in_map_iff in Hx as (x' & E & Hx). inversion E; subst x' y'.
  specialize (H x y Hx Hy). lia.
Qed.

Section ZeroWindows.

Variable d : DecimateContext.
Variables (cur : pointer) (cls : Z) (ref_ : pointer) (rls : Z) (w h : Z).

Hypothesis all_zero :
  forall x y, In (x, y) (windows w h) -> window_sad d cur cls ref_ rls x y = 0.

Lemma zero_windows_not_above_hi :
  0 <= hi d -> exceeds_hi d cur cls ref_ rls (windows w h) = false.
Proof.
  intros Hhi. unfold exceeds_hi.
  destruct (existsb _ (windows w h)) eqn:E; [|reflexivity].
  apply existsb_exists in E as ([x y] & Hin & Hgt). cbn [fst snd] in Hgt.
  rewrite (all_zero x y Hin) in Hgt. lia.
Qed.

Lemma zero_windows_all_above_lo :
  lo d < 0 -> count_lo d cur cls ref_ rls (windows w h) = Z.of_nat (length (windows w h)).
Proof.
  intros Hlo. unfold count_lo. f_equal. apply filter_all_length.
  intros [x y] Hin. cbn [fst snd]. rewrite (all_zero x y Hin). lia.
Qed.

Lemma count_lo_le_length :
  count_lo d cur cls ref_ rls (windows w h) <= Z.of_nat (length (windows w h)).
Proof.
  unfold count_lo. pose proof (filter_length_le
    (fun p => window_sad d cur cls ref_ rls (fst p) (snd p) >? lo d) (windows w h)).
  lia.
Qed.

Lemma zero_windows_low_budget :
  16 <= w -> 8 <= h -> lo d < 0 ->
  threshold d w h < Z.of_nat (length (windows w h)) ->
  diff_planes d cur cls ref_ rls w h = 1.
Proof.
  intros Hw Hh Hlo Ht.
  set (t' := Z.max (threshold d w h) 0).
  assert (Hpos : 0 < Z.of_nat (length (windows w h))).
  { pose proof (first_window w h Hw Hh) as Hin.
    destruct (windows w h); [contradiction | cbn [length]; lia]. }
  assert (Hscan : scan_rows d cur cls ref_ rls t'
                    (loop_range 8 (w - 7)) (loop_range 0 (h - 7)) 0 = Return 1).
  { rewrite scan_rows_spec by (unfold t'; lia).
    change (flat_map (fun y => map (fun x => (x, y)) (loop_range 8 (w - 7)))
              (loop_range 0 (h - 7))) with (windows w h).
    rewrite zero_windows_all_above_lo by exact Hlo.
    replace (t' <? 0 + Z.of_nat (length (windows w h))) with true
      by (symmetry; apply Z.ltb_lt; unfold t'; lia).
    now rewrite orb_true_r. }
  pose proof (scan_rows_ahead d d cur cls ref_ rls eq_refl (Z.le_refl _) (Z.le_refl _)
                (threshold d w h) t'
                (loop_range 8 (w - 7)) (loop_range 0 (h - 7))
                ltac:(unfold t'; lia) 0 0 (Z.le_refl 0)) as A.
  rewrite Hscan in A. unfold diff_planes.
  destruct (scan_rows d cur cls ref_ rls (threshold d w h)
              (loop_range 8 (w - 7)) (loop_range 0 (h - 7)) 0) as [r|c];
    cbn [ahead] in A; [exact A | contradiction].
Qed.

Lemma zero_windows_high_budget :
  0 <= hi d -> Z.of_nat (length (windows w h)) <= threshold d w h ->
  diff_planes d cur cls ref_ rls w h = 0.
Proof.
  intros Hhi Ht.
  rewrite diff_planes_spec by lia.
  rewrite zero_windows_not_above_hi by exact Hhi.
  pose proof count_lo_le_length.
  replace (threshold d w h <? count_lo d cur cls ref_ rls (windows w h)) with false
    by (symmetry; apply Z.ltb_ge; lia).
  reflexivity.
Qed.

End ZeroWindows.

(** C6 (amended).  Two planes with equal pixels over the compared region,
    scanned with the 8x8 SAD, are declared identical for every [frac] when
    [hi] and [lo] are not negative.  When the plane has a sampled window (16
    columns and 8 rows at least) they are declared different for every
    negative [hi], and for every negative [lo] with a truncated budget [t]
    below the number of sampled windows; with [hi] not negative and [t] not
    below that number they are declared identical, whatever [lo]. *)
Theorem identical_planes_not_different (d : DecimateContext)
    (cur : pointer) (cls : Z) (ref_ : pointer) (rls : Z) (w h : Z) :
  sad d = sad_8x8 ->
  same_pixels cur cls ref_ rls w h ->
  (0 <= hi d -> 0 <= lo d -> diff_planes d cur cls ref_ rls w h = 0) /\
  (16 <= w -> 8 <= h -> hi d < 0 -> diff_planes d cur cls ref_ rls w h = 1) /\
  (16 <= w -> 8 <= h -> lo d < 0 ->
   threshold d w h < Z.of_nat (length (windows w h)) ->
   diff_planes d cur cls ref_ rls w h = 1) /\
  (0 <= hi d -> Z.of_nat (length (windows w h)) <= threshold d w h ->
   diff_planes d cur cls ref_ rls w h = 0).
Proof.
  intros Hsad Hsame.
  assert (Hzero : forall x y, In (x, y) (windows w h) ->
                    window_sad d cur cls ref_ rls x y = 0).
  { intros x y Hin. exact (window_sad_same_pixels d cur cls ref_ rls w h x y
                             Hsad Hsame Hin). }
  split; [|split; [|split]].
  - intros Hhi Hlo. apply diff_planes_quiet. intros x y Hin.
    rewrite (Hzero x y Hin). split; assumption.
  - intros Hw Hh Hhi.
    apply (diff_planes_high d cur cls ref_ rls w h 8 0 (first_window w h Hw Hh)).
    rewrite (Hzero 8 0 (first_window w h Hw Hh)). exact Hhi.
  - intros Hw Hh Hlo Ht. now apply zero_windows_low_budget.
  - intros Hhi Ht. now apply zero_windows_high_budget.
Qed.

Lemma identical_planes_not_different_witness :
  diff_planes scenario_context gray_plane 16 gray_plane 16 16 16 = 0 /\
  diff_planes (new_context 10 (-1) 320 Float32.f033 sad_8x8)
              gray_plane 16 gray_plane 16 16 16 = 1.
Proof.
  assert (Hsame : same_pixels gray_plane 16 gray_plane 16 16 16)
    by (intros col row _ _; reflexivity).
  assert (Hsad : sad scenario_context = sad_8x8) by reflexivity.
  assert (Hsad' : sad (new_context 10 (-1) 320 Float32.f033 sad_8x8) = sad_8x8)
    by reflexivity.
  pose proof (identical_planes_not_different scenario_context
                gray_plane 16 gray_plane 16 16 16 Hsad Hsame) as H.
  pose proof (identical_planes_not_different
                (new_context 10 (-1) 320 Float32.f033 sad_8x8)
                gray_plane 16 gray_plane 16 16 16 Hsad' Hsame) as H'.
  destruct H as (H & _). destruct H' as (_ & H' & _).
  split.
  - apply H; vm_compute; discriminate.
  - apply H'; [lia | lia | vm_compute; reflexivity].
Defined.
